(** * Aggregation logic of the civic-data visualisation scripts

    A shallow embedding of the record aggregation performed by
    [examples/create_visualizations.py], [examples/create_html_visualizations.py]
    and [examples/real_data_analysis.py], and the properties the specification
    states about it.

    Python dictionaries whose iteration order is irrelevant to the result are
    finite maps ([gmap]); the [categories] literal, whose [items()] order is
    the matching priority, and [borough_totals], whose [items()] order decides
    ties of [sorted], are association lists in insertion order.  Exceptions
    are an explicit error result.

    The chart methods are followed up to the data they hand to matplotlib,
    and [create_html_dashboard] through the header of its page: drawing, and
    the writing of files, are not part of the embedding.  The analysis
    functions are followed to their end, the integers they print
    included. *)

From Stdlib Require Import ZArith QArith List Ascii String Sorting.Sorted.
From Stdlib Require Import Permutation.
From stdpp Require Import base option list gmap strings fin_maps numbers.

Local Open Scope string_scope.
Local Open Scope Z_scope.

(** ** Python fragments the scripts rely on *)

Module Py.

(** The exceptions that the modelled statements can raise. *)
Inductive exn : Type :=
| ValueError           (* int() on no integer literal, an integer too long to write *)
| KeyError             (* d[k] with k absent *)
| ZeroDivisionError    (* x / 0 *)
| OverflowError.       (* a quotient or conversion beyond the largest float *)

Inductive result (A : Type) : Type :=
| Ok (a : A)
| Raise (e : exn).
Arguments Ok {A} a.
Arguments Raise {A} e.

Definition bind {A B} (m : result A) (k : A -> result B) : result B :=
  match m with
  | Ok a => k a
  | Raise e => Raise e
  end.

#[global] Instance result_ret : MRet result := fun A a => Ok a.
#[global] Instance result_bind : MBind result := fun A B k m => bind m k.

(** [for x in l: s = body(s, x)], stopping at the first exception. *)
Fixpoint for_each {S A} (body : S -> A -> result S) (s : S) (l : list A)
  : result S :=
  match l with
  | [] => Ok s
  | x :: l' => s' ← body s x; for_each body s' l'
  end.

(** [[f(x) for x in l]], stopping at the first exception. *)
Fixpoint map_each {A B} (f : A -> result B) (l : list A) : result (list B) :=
  match l with
  | [] => Ok []
  | x :: l' => y ← f x; ys ← map_each f l'; Ok (y :: ys)
  end.

(** [sum(l)] on integers. *)
Definition sum (l : list Z) : Z := foldl Z.add 0 l.
#[global] Arguments sum : simpl never.

(** A JSON scalar as [json.load] yields it for the fields read here: the
    open-data endpoint sends counts as strings, hand-written files may
    carry integers. *)
Inductive value : Type :=
| VStr (s : string)
| VInt (z : Z).

(** *** [int(s)] on the ASCII fragment

    Surrounding whitespace (tab, line feed, vertical tab, form feed,
    carriage return, space) is stripped, one sign is allowed, and the digits
    may be separated by single underscores; a literal of more than 4300
    digits, the interpreter's default limit, is refused.  The model is exact
    on ASCII strings; the digits and whitespace beyond ASCII that [int]
    also accepts are outside it. *)

Definition is_space (a : ascii) : bool :=
  let n := nat_of_ascii a in
  ((9 <=? n) && (n <=? 13) || (n =? 32))%nat.

(** [s.isascii()] *)
Definition is_ascii (s : string) : bool :=
  forallb (fun a => (nat_of_ascii a <? 128)%nat) (list_ascii_of_string s).

Fixpoint lstrip (l : list ascii) : list ascii :=
  match l with
  | a :: l' => if is_space a then lstrip l' else l
  | [] => []
  end.

Definition strip (l : list ascii) : list ascii :=
  rev (lstrip (rev (lstrip l))).

Definition digit_of (a : ascii) : option Z :=
  let n := Z.of_nat (nat_of_ascii a) in
  if (48 <=? n) && (n <=? 57) then Some (n - 48) else None.

(** Reads [digit (_? digit)*] and nothing else. *)
Fixpoint digits (acc : Z) (l : list ascii) : option Z :=
  match l with
  | [] => None
  | a :: l' =>
      match digit_of a with
      | None => None
      | Some d =>
          let acc' := 10 * acc + d in
          match l' with
          | [] => Some acc'
          | "_"%char :: l'' => digits acc' l''
          | _ => digits acc' l'
          end
      end
  end.

(** [sys.get_int_max_str_digits()] as the interpreter starts. *)
Definition max_str_digits : Z := 4300.

(** The digits of a literal, refused when there are more digit characters
    than the limit (underscores do not count, leading zeros do). *)
Definition limited_digits (l : list ascii) : option Z :=
  if max_str_digits <? Z.of_nat (length (filter (fun a => is_Some (digit_of a)) l))
  then None
  else digits 0 l.

Definition int_of_string (s : string) : option Z :=
  match strip (list_ascii_of_string s) with
  | "-"%char :: l => Z.opp <$> limited_digits l
  | "+"%char :: l => limited_digits l
  | l => limited_digits l
  end.

Definition int (v : value) : result Z :=
  match v with
  | VInt z => Ok z
  | VStr s =>
      match int_of_string s with
      | Some z => Ok z
      | None => Raise ValueError
      end
  end.

(** *** Integers written in decimal

    [str(n)], an f-string field such as [{n:,}] and [json.dumps(n)] refuse
    an integer of more than 4300 digits with the same [ValueError] as
    [int]; a sign does not count. *)

Definition str_bound : Z := 10 ^ max_str_digits.

Definition format_int (n : Z) : result unit :=
  if str_bound <=? Z.abs n then Raise ValueError else Ok tt.

(** An f-string field that holds a JSON scalar: a string is padded as it
    is, an integer is written in decimal. *)
Definition format_value (v : value) : result unit :=
  match v with
  | VStr _ => Ok tt
  | VInt n => format_int n
  end.

(** *** Quotients that do not fit a float

    [x / y] on integers is the exact quotient rounded to the nearest double,
    ties to even, so it overflows exactly when its magnitude reaches
    [2^1024 - 2^970], halfway between the largest double and [2^1024];
    [float(x)] overflows at the same magnitude. *)

Definition float_bound : Z := 2 ^ 1024 - 2 ^ 970.

Definition overflows (x y : Z) : bool :=
  float_bound * Z.abs y <=? Z.abs x.

(** *** [s.upper()] on the ASCII fragment *)

Definition upper_ascii (a : ascii) : ascii :=
  let n := nat_of_ascii a in
  if ((97 <=? n) && (n <=? 122))%nat then ascii_of_nat (n - 32) else a.

Fixpoint upper (s : string) : string :=
  match s with
  | EmptyString => EmptyString
  | String a s' => String (upper_ascii a) (upper s')
  end.

(** *** Dictionaries with integer values *)

(** [{k: 0 for k in keys}] *)
Definition zeros (keys : list string) : gmap string Z :=
  list_to_map ((fun k => (k, 0)) <$> keys).

(** [d[k] += n] *)
Definition iadd (k : string) (n : Z) (d : gmap string Z)
  : result (gmap string Z) :=
  match d !! k with
  | Some v => Ok (<[k := v + n]> d)
  | None => Raise KeyError
  end.

(** [sum(d.values())] *)
Definition sum_values (d : gmap string Z) : Z :=
  map_fold (fun _ v acc => v + acc) 0 d.

End Py.

Import Py.

(** ** Records of [analysis_results.json] *)

(** An element of [results['311_complaints']]. *)
Module Complaint.
Record t : Type := Make {
  complaint_type : string;
  count : value
}.
End Complaint.

(** An element of [results['restaurant_grades']]. *)
Module Grade.
Record t : Type := Make {
  boro : string;
  grade : string;
  count : value
}.
End Grade.

(** ** [create_visualizations.py], class [DataVisualizer] *)

Module DataVisualizer.

(** The [categories] literal of [create_complaint_categories_chart], in the
    order [categories.items()] yields it. *)
Definition categories : list (string * list string) :=
  [ ("Infrastructure", ["HEAT/HOT WATER"; "PLUMBING"]);
    ("Noise", ["Noise - Residential"; "Noise - Street/Sidewalk";
               "Noise - Commercial"; "Noise"]);
    ("Parking", ["Illegal Parking"; "Blocked Driveway"]);
    ("Other", []) ].

Section Categorize.

(** The bucket table is a parameter so that the loop can be stated for
    any table; the scripts run it on [categories]. *)
Variable categories : list (string * list string).

(** The inner [for category, types in categories.items()] with its
    [break]: the first category whose [types] holds the complaint type,
    [None] when [categorized] stays [False]. *)
Fixpoint first_category (items : list (string * list string))
    (complaint_type : string) : option string :=
  match items with
  | [] => None
  | (category, types) :: rest =>
      if bool_decide (complaint_type ∈ types) then Some category
      else first_category rest complaint_type
  end.

(** Body of [for complaint in complaints]. *)
Definition categorize (category_counts : gmap string Z)
    (complaint : Complaint.t) : result (gmap string Z) :=
  let complaint_type := Complaint.complaint_type complaint in
  count ← int (Complaint.count complaint);
  match first_category categories complaint_type with
  | Some category => iadd category count category_counts
  | None => iadd "Other" count category_counts
  end.

(** Lines 202-216: the [category_counts] dictionary after the loop. *)
Definition category_counts (complaints : list Complaint.t)
  : result (gmap string Z) :=
  for_each categorize (zeros (categories.*1)) complaints.

End Categorize.

(** [create_complaint_categories_chart] up to the data handed to the plot:
    it returns at once, without a chart, when there are no complaints. *)
Definition create_complaint_categories_chart (complaints : list Complaint.t)
  : result (option (gmap string Z)) :=
  match complaints with
  | [] => Ok None
  | _ => d ← category_counts categories complaints; Ok (Some d)
  end.

(** The [boroughs] literal of [create_restaurant_grades_chart]. *)
Definition boroughs : list string :=
  ["Manhattan"; "Brooklyn"; "Queens"; "Bronx"; "Staten Island"].

(** The grades [['A', 'B', 'C']] the chart recognises. *)
Definition abc : list string := ["A"; "B"; "C"].

Section GradeTable.

(** The borough and grade lists are parameters; the scripts run the loop
    on [boroughs] and [abc]. *)
Variable boroughs : list string.
Variable recognized : list string.

(** [{boro: {'A': 0, 'B': 0, 'C': 0} for boro in boroughs}]: every
    borough gets a row dictionary of its own. *)
Definition zero_table : gmap string (gmap string Z) :=
  list_to_map ((fun boro => (boro, zeros recognized)) <$> boroughs).

(** [grade_counts[boro][grade] += count] *)
Definition cell_iadd (boro grade : string) (n : Z)
    (grade_counts : gmap string (gmap string Z))
  : result (gmap string (gmap string Z)) :=
  match grade_counts !! boro with
  | Some row => row' ← iadd grade n row; Ok (<[boro := row']> grade_counts)
  | None => Raise KeyError
  end.

(** Body of [for item in grades]. *)
Definition tally (grade_counts : gmap string (gmap string Z))
    (item : Grade.t) : result (gmap string (gmap string Z)) :=
  let boro := Grade.boro item in
  let grade := upper (Grade.grade item) in
  count ← int (Grade.count item);
  if bool_decide (is_Some (grade_counts !! boro))
     && bool_decide (grade ∈ recognized)
  then cell_iadd boro grade count grade_counts
  else Ok grade_counts.

(** Lines 90-98: the [grade_counts] table after the loop. *)
Definition grade_counts (grades : list Grade.t)
  : result (gmap string (gmap string Z)) :=
  for_each tally zero_table grades.

(** [grade_counts[b][g]] *)
Definition cell (grade_counts : gmap string (gmap string Z))
    (b g : string) : result Z :=
  match grade_counts !! b with
  | Some row =>
      match row !! g with
      | Some v => Ok v
      | None => Raise KeyError
      end
  | None => Raise KeyError
  end.

(** [[grade_counts[b][g] for b in boroughs]] *)
Definition column (grade_counts : gmap string (gmap string Z))
    (g : string) : result (list Z) :=
  map_each (fun b => cell grade_counts b g) boroughs.

End GradeTable.

(** What [create_restaurant_grades_chart] hands to the stacked bars. *)
Record grades_chart : Type := GradesChart {
  a_counts : list Z;
  b_counts : list Z;
  c_counts : list Z
}.

(** [create_restaurant_grades_chart] up to the plotted data; no chart is
    made when there are no grade records. *)
Definition create_restaurant_grades_chart (grades : list Grade.t)
  : result (option grades_chart) :=
  match grades with
  | [] => Ok None
  | _ =>
      grade_counts ← grade_counts boroughs abc grades;
      a_counts ← column boroughs grade_counts "A";
      b_counts ← column boroughs grade_counts "B";
      c_counts ← column boroughs grade_counts "C";
      Ok (Some (GradesChart a_counts b_counts c_counts))
  end.

(** [sum(int(g['count']) for g in grades if g['grade'].upper() == letter)]:
    [int] is applied to the selected records only. *)
Definition grade_total (letter : string) (grades : list Grade.t)
  : result Z :=
  counts ← map_each (fun g => int (Grade.count g))
             (filter (fun g => upper (Grade.grade g) = letter) grades);
  Ok (sum counts).

(** [create_grade_distribution_pie] up to [sizes]. *)
Definition create_grade_distribution_pie (grades : list Grade.t)
  : result (option (list Z)) :=
  match grades with
  | [] => Ok None
  | _ =>
      total_a ← grade_total "A" grades;
      total_b ← grade_total "B" grades;
      total_c ← grade_total "C" grades;
      Ok (Some [total_a; total_b; total_c])
  end.

(** *** [sorted(iterable, key=..., reverse=True)]

    Python's sort is stable, also with [reverse=True]: among equal keys the
    input order is kept.  The result of a stable sort is unique, so the
    insertion sort below returns the list Python returns. *)
Section Sorted.

Context {A : Type} (key : A -> Z).

Fixpoint insert_desc (x : A) (l : list A) : list A :=
  match l with
  | [] => [x]
  | y :: l' =>
      if key x <? key y then y :: insert_desc x l' else x :: y :: l'
  end.

Fixpoint sorted_desc (l : list A) : list A :=
  match l with
  | [] => []
  | x :: l' => insert_desc x (sorted_desc l')
  end.

End Sorted.

(** Body of [for item in grades] of [create_borough_comparison_chart];
    [borough_totals] keeps insertion order, a new borough goes last. *)
Fixpoint totals_add (boro : string) (n : Z) (borough_totals : list (string * Z))
  : list (string * Z) :=
  match borough_totals with
  | [] => [(boro, 0 + n)]
  | (b, v) :: rest =>
      if bool_decide (b = boro) then (b, v + n) :: rest
      else (b, v) :: totals_add boro n rest
  end.

Definition borough_totals (grades : list Grade.t)
  : result (list (string * Z)) :=
  for_each
    (fun borough_totals item =>
       let boro := Grade.boro item in
       count ← int (Grade.count item);
       Ok (totals_add boro count borough_totals))
    [] grades.

(** [create_borough_comparison_chart] up to [sorted_boroughs]. *)
Definition create_borough_comparison_chart (grades : list Grade.t)
  : result (option (list (string * Z))) :=
  match grades with
  | [] => Ok None
  | _ =>
      borough_totals ← borough_totals grades;
      Ok (Some (sorted_desc snd borough_totals))
  end.

(** What [create_311_complaints_chart] hands to the bar chart. *)
Record complaints_chart : Type := ComplaintsChart {
  types : list string;
  counts : list Z
}.

(** [create_311_complaints_chart] up to the data of the bars (lines 37-44),
    before anything is drawn; the total of line 67 is [sum(counts)]. *)
Definition create_311_complaints_chart (complaints : list Complaint.t)
  : result (option complaints_chart) :=
  match complaints with
  | [] => Ok None
  | _ =>
      let types := Complaint.complaint_type <$> complaints in
      counts ← map_each (fun c => int (Complaint.count c)) complaints;
      Ok (Some (ComplaintsChart types counts))
  end.

(** [[a + b + c for a, b, c in zip(a_counts, b_counts, c_counts)]]: [zip]
    stops with the shortest list. *)
Fixpoint zip_sum (a_counts b_counts c_counts : list Z) : list Z :=
  match a_counts, b_counts, c_counts with
  | a :: a_counts, b :: b_counts, c :: c_counts =>
      (a + b + c) :: zip_sum a_counts b_counts c_counts
  | _, _, _ => []
  end.

(** The [totals] written over the stacked bars (line 130). *)
Definition totals (chart : grades_chart) : list Z :=
  zip_sum (a_counts chart) (b_counts chart) (c_counts chart).

(** [t[:25] + '...' if len(t) > 25 else t], on the ASCII fragment where
    [len] counts the characters of the string. *)
Definition short_type (t : string) : string :=
  if (25 <? String.length t)%nat then (substring 0 25 t ++ "...")%string else t.

(** [create_summary_dashboard] up to the data of its first panel (lines
    300-304), before anything is drawn: the labels and counts of
    [complaints[:5]]. *)
Definition create_summary_dashboard (complaints : list Complaint.t)
  : result (option (list string * list Z)) :=
  match complaints with
  | [] => Ok None
  | _ =>
      let types :=
        (fun c => short_type (Complaint.complaint_type c)) <$> take 5 complaints in
      counts ← map_each (fun c => int (Complaint.count c)) (take 5 complaints);
      Ok (Some (types, counts))
  end.

End DataVisualizer.

(** ** [create_html_visualizations.py], class [HTMLVisualizer] *)

Module HTMLVisualizer.

(** [x / y] on integers: [ZeroDivisionError] on a zero divisor,
    [OverflowError] when the quotient does not fit a float.  The value is
    kept as the exact rational; its rounding plays no part in what is
    proved. *)
Definition true_div (x y : Z) : result Q :=
  if y =? 0 then Raise ZeroDivisionError
  else if overflows x y then Raise OverflowError
  else Ok (inject_Z x / inject_Z y)%Q.

(** The values [create_html_dashboard] has computed when it formats the
    header of the page. *)
Record dashboard : Type := Dashboard {
  total_complaints : Z;
  grade_data : gmap string (gmap string Z);
  total_a : Z;
  total_b : Z;
  total_c : Z;
  total_restaurants : Z;
  category_counts : gmap string Z;
  grade_a_percent : Q
}.

(** [create_html_dashboard] through the header of the page (lines 26-214).
    Lines 35-43 and 55-74 repeat the loops of [create_visualizations.py] on
    the same literals, here without any guard on empty input.  The f-string
    evaluates and formats its fields in order: [{total_complaints:,}] and
    [{total_restaurants:,}] come before the header field
    [{(total_a/total_restaurants*100):.1f}], the one division.  What the
    page formats after the header, and the writing of the file, are left
    out. *)
Definition create_html_dashboard (complaints : list Complaint.t)
    (grades : list Grade.t) : result dashboard :=
  complaint_counts ← map_each (fun c => int (Complaint.count c)) complaints;
  let total_complaints := sum complaint_counts in
  let boroughs := DataVisualizer.boroughs in
  grade_data ← DataVisualizer.grade_counts boroughs DataVisualizer.abc grades;
  a ← DataVisualizer.column boroughs grade_data "A";
  b ← DataVisualizer.column boroughs grade_data "B";
  c ← DataVisualizer.column boroughs grade_data "C";
  let total_a := sum a in
  let total_b := sum b in
  let total_c := sum c in
  let total_restaurants := total_a + total_b + total_c in
  category_counts ←
    DataVisualizer.category_counts DataVisualizer.categories complaints;
  _ ← format_int total_complaints;
  _ ← format_int total_restaurants;
  q ← true_div total_a total_restaurants;
  Ok (Dashboard total_complaints grade_data total_a total_b total_c
        total_restaurants category_counts (q * 100)%Q).

(** [[sum(grade_data[b].values()) for b in boroughs]] (line 52). *)
Definition borough_totals (grade_data : gmap string (gmap string Z))
  : result (list Z) :=
  map_each
    (fun b => match grade_data !! b with
              | Some row => Ok (sum_values row)
              | None => Raise KeyError
              end)
    DataVisualizer.boroughs.

End HTMLVisualizer.

(** ** [real_data_analysis.py], class [RealDataAnalysis] *)

Module RealDataAnalysis.

(** [analyze_311_complaints] (lines 169-192): the table prints the counts
    of the first ten records as they are; the result is [percentage], the
    share of the first complaint type, [0] when the total is not
    positive. *)
Definition analyze_311_complaints (complaints : list Complaint.t)
  : result (option Q) :=
  match complaints with
  | [] => Ok None
  | top_complaint :: _ =>
      _ ← map_each (fun item => format_value (Complaint.count item))
            (take 10 complaints);
      counts ← map_each (fun item => int (Complaint.count item)) complaints;
      let total := sum counts in
      _ ← format_int total;
      top_count ← int (Complaint.count top_complaint);
      if 0 <? total
      then q ← HTMLVisualizer.true_div top_count total; Ok (Some (q * 100)%Q)
      else Ok (Some 0%Q)
  end.

(** [defaultdict(lambda: {'A': 0, 'B': 0, 'C': 0, 'other': 0})] read at a
    borough. *)
Definition row_of (borough_data : gmap string (gmap string Z))
    (boro : string) : gmap string Z :=
  default (zeros ["A"; "B"; "C"; "other"]) (borough_data !! boro).

(** Lines 203-213 of [analyze_restaurant_grades]: every borough met gets a
    row, and an unrecognised grade is counted under ['other']. *)
Definition borough_data (grades : list Grade.t)
  : result (gmap string (gmap string Z)) :=
  for_each
    (fun borough_data item =>
       let boro := Grade.boro item in
       let grade := upper (Grade.grade item) in
       count ← int (Grade.count item);
       let key := if bool_decide (grade ∈ ["A"; "B"; "C"]) then grade
                  else "other" in
       row' ← iadd key count (row_of borough_data boro);
       Ok (<[boro := row']> borough_data))
    ∅ grades.

(** [sum(data[key] for data in borough_data.values())]; the order of the
    rows plays no part in the sum. *)
Definition key_total (key : string)
    (borough_data : gmap string (gmap string Z)) : result Z :=
  vs ← map_each
         (fun data : gmap string Z =>
            match data !! key with
            | Some v => Ok v
            | None => Raise KeyError
            end)
         ((map_to_list borough_data).*2);
  Ok (sum vs).

(** The overall figures of [analyze_restaurant_grades]. *)
Record grade_report : Type := GradeReport {
  total_a : Z;
  total_b : Z;
  total_c : Z;
  grand_total : Z;
  distribution : option (Q * Q * Q)
}.

(** One line of the table (lines 219-222): the cells of the three grades
    and the sum of the row, written in decimal. *)
Definition print_row (data : gmap string Z) : result unit :=
  let total := sum_values data in
  _ ← map_each
        (fun key => match data !! key with
                    | Some v => format_int v
                    | None => Raise KeyError
                    end)
        ["A"; "B"; "C"];
  format_int total.

(** [{total:,} ({total/grand_total*100:.1f}%)] (lines 232-234): the total
    is written before the quotient is taken. *)
Definition print_share (total grand_total : Z) : result Q :=
  _ ← format_int total;
  q ← HTMLVisualizer.true_div total grand_total;
  Ok (q * 100)%Q.

(** [analyze_restaurant_grades] (lines 198-234): the distribution is
    printed only for a positive grand total.  The rows are printed in the
    order of the borough names; as a row can only fail to print by the
    [ValueError] of an integer too long to write, the order plays no part in
    the result. *)
Definition analyze_restaurant_grades (grades : list Grade.t)
  : result (option grade_report) :=
  match grades with
  | [] => Ok None
  | _ =>
      borough_data ← borough_data grades;
      _ ← map_each print_row ((map_to_list borough_data).*2);
      total_a ← key_total "A" borough_data;
      total_b ← key_total "B" borough_data;
      total_c ← key_total "C" borough_data;
      let grand_total := total_a + total_b + total_c in
      if 0 <? grand_total
      then
        qa ← print_share total_a grand_total;
        qb ← print_share total_b grand_total;
        qc ← print_share total_c grand_total;
        Ok (Some (GradeReport total_a total_b total_c grand_total
                    (Some (qa, qb, qc))))
      else
        Ok (Some (GradeReport total_a total_b total_c grand_total None))
  end.

(** [cities[name]['population']] on the [cities] dictionary, kept in
    insertion order as pairs of city name and population. *)
Fixpoint population_of (name : string) (cities : list (string * Z))
  : result Z :=
  match cities with
  | [] => Raise KeyError
  | (n, pop) :: rest =>
      if bool_decide (n = name) then Ok pop else population_of name rest
  end.

(** The lines and the closing insight of [analyze_population_comparison]. *)
Record population_report : Type := PopulationReport {
  lines : list (string * Z * option Q);
  nyc_share : option Q
}.

(** [analyze_population_comparison] (lines 240-266); [nyc_pop] is [None]
    when the dictionary has no ['population'] key, which [get] reads as 0.
    A line takes its ratio first and then writes the population
    ([{pop:>14,}]); the closing insight writes the sum of the populations
    before it divides by it. *)
Definition analyze_population_comparison (cities : list (string * Z))
    (nyc_pop : option Z) : result (option population_report) :=
  match cities with
  | [] => Ok None
  | _ =>
      let nyc_population := default 0 nyc_pop in
      let names :=
        DataVisualizer.sorted_desc
          (fun x => match population_of x cities with
                    | Ok pop => pop
                    | Raise _ => 0
                    end)
          (cities.*1) in
      lines ← map_each
                (fun city_name =>
                   pop ← population_of city_name cities;
                   comparison ←
                     (if 0 <? nyc_population
                      then ratio ← HTMLVisualizer.true_div pop nyc_population;
                           Ok (Some ratio)
                      else Ok None);
                   _ ← format_int pop;
                   Ok (city_name, pop, comparison))
                names;
      if 0 <? nyc_population
      then
        let total_pop := sum (cities.*2) in
        _ ← format_int total_pop;
        q ← HTMLVisualizer.true_div nyc_population total_pop;
        Ok (Some (PopulationReport lines (Some (q * 100)%Q)))
      else Ok (Some (PopulationReport lines None))
  end.

(** [x / y] for a float [x] and an integer [y]: [y] is converted to a
    float first, which overflows as in [true_div]; the quotient is kept
    exact. *)
Definition float_div (x : Q) (y : Z) : result Q :=
  if overflows y 1 then Raise OverflowError
  else if y =? 0 then Raise ZeroDivisionError
  else Ok (x / inject_Z y)%Q.

(** The two computed figures of [create_combined_insights]. *)
Record insights : Type := Insights {
  complaints_per_capita : option Q;
  a_percentage : option Q
}.

(** [create_combined_insights] (lines 283-303).  The third insight
    computes nothing, but writes the population ([{nyc_population:,}]) when
    there are cities and the population is positive; a dictionary [nyc_pop]
    with a ['population'] key is not empty. *)
Definition create_combined_insights (complaints : list Complaint.t)
    (grades : list Grade.t) (cities : list (string * Z))
    (nyc_pop : option Z) : result insights :=
  insight1 ←
    match complaints with
    | [] => Ok None
    | _ =>
        counts ← map_each (fun c => int (Complaint.count c)) complaints;
        let total_complaints := sum counts in
        let nyc_population := default 0 nyc_pop in
        if 0 <? nyc_population
        then
          yearly ← HTMLVisualizer.true_div (total_complaints * 365) 7;
          per_capita ← float_div yearly nyc_population;
          Ok (Some per_capita)
        else Ok None
    end;
  insight2 ←
    match grades with
    | [] => Ok None
    | _ =>
        counts ← map_each (fun g => int (Grade.count g)) grades;
        let total_restaurants := sum counts in
        grade_a ← DataVisualizer.grade_total "A" grades;
        if 0 <? total_restaurants
        then q ← HTMLVisualizer.true_div grade_a total_restaurants;
             Ok (Some (q * 100)%Q)
        else Ok None
    end;
  _ ←
    match cities, nyc_pop with
    | _ :: _, Some nyc_population =>
        if 0 <? nyc_population then format_int nyc_population else Ok tt
    | _, _ => Ok tt
    end;
  Ok (Insights insight1 insight2).

End RealDataAnalysis.

(** ** Vocabulary of the specification *)

Module Spec.

(** A count is numeric when [int] accepts it. *)
Definition numeric (v : value) : bool :=
  match int v with
  | Ok _ => true
  | Raise _ => false
  end.

(** The integer a numeric count stands for. *)
Definition int_value (v : value) : Z :=
  match int v with
  | Ok n => n
  | Raise _ => 0
  end.

(** "A negative or non-numeric count". *)
Definition invalid_count (v : value) : bool :=
  match int v with
  | Ok n => n <? 0
  | Raise _ => true
  end.

(** A count that is an integer or an ASCII string, the strings on which
    the model of [int] is exact. *)
Definition ascii_count (v : value) : bool :=
  match v with
  | VStr s => is_ascii s
  | VInt _ => true
  end.

(** "The first bucket whose type set contains the record's type string; if
    no bucket matches, the catch-all bucket". *)
Definition bucket_of (buckets : list (string * list string))
    (catch_all : string) (type : string) : string :=
  match filter (fun b => type ∈ b.2) buckets with
  | (name, _) :: _ => name
  | [] => catch_all
  end.

(** Sum of the counts of the complaints that satisfy [P]. *)
Definition complaints_total (P : Complaint.t -> Prop)
    `{!forall c, Decision (P c)} (complaints : list Complaint.t) : Z :=
  sum ((fun c => int_value (Complaint.count c)) <$> filter P complaints).

(** Sum of the counts of the grade records that satisfy [P]. *)
Definition grades_total (P : Grade.t -> Prop)
    `{!forall g, Decision (P g)} (grades : list Grade.t) : Z :=
  sum ((fun g => int_value (Grade.count g)) <$> filter P grades).

(** A record of grade [letter] whose borough is none of the five. *)
Definition outside (letter : string) (g : Grade.t) : Prop :=
  upper (Grade.grade g) = letter /\ Grade.boro g ∉ DataVisualizer.boroughs.

#[global] Instance outside_dec letter g : Decision (outside letter g).
Proof. unfold outside. apply _. Defined.

(** How an overall total of the pie relates to the column of the same
    grade in the stacked bars: it exceeds the column sum by the counts of
    the records of that grade outside the five boroughs. *)
Definition exceeds_by_outside (letter : string) (grades : list Grade.t)
    (total : Z) (column : list Z) : Prop :=
  total = sum column + grades_total (outside letter) grades /\
  0 <= grades_total (outside letter) grades /\
  (total = sum column <-> grades_total (outside letter) grades = 0) /\
  (Exists (fun g => outside letter g /\ 0 < int_value (Grade.count g)) grades ->
   sum column < total).

(** The cells [(borough, grade, count)] of a borough-and-grade table. *)
Definition cells (table : gmap string (gmap string Z))
  : list (string * string * Z) :=
  '(b, row) ← map_to_list table;
  (fun '(g, v) => (b, g, v)) <$> map_to_list row.

(** The record with its grade replaced by the uppercase form. *)
Definition with_upper_grade (item : Grade.t) : Grade.t :=
  Grade.Make (Grade.boro item) (upper (Grade.grade item)) (Grade.count item).

(** The record list with the grades at the selected positions replaced by
    their uppercase forms. *)
Definition uppercase_where (sel : nat -> bool) (grades : list Grade.t)
  : list Grade.t :=
  imap (fun i item => if sel i then with_upper_grade item else item) grades.

(** Descending order of the sort keys. *)
Definition descending {A : Type} (key : A -> Z) (x y : A) : Prop :=
  key y <= key x.

(** Modelled from the spec: the scripts have no [top_n] function.  The
    specification words it as "the first [n] records after a stable sort on
    [sort_key] in the given order"; the sort is the
    [sorted(..., reverse=True)] of [create_borough_comparison_chart] and the
    cut is the slice [[:n]] the scripts apply to their record lists. *)
Definition top_n {A : Type} (key : A -> Z) (records : list A) (n : nat)
  : list A :=
  take n (DataVisualizer.sorted_desc key records).

End Spec.

Import Spec.

(** ** Loop invariants *)

(** The keys of [category_counts] are the keys of [categories]. *)
Definition keyed (categories : list (string * list string))
    (d : gmap string Z) : Prop :=
  forall k, is_Some (d !! k) <-> k ∈ categories.*1.

(** The rows of [grade_counts] are the [boroughs], each with the
    [recognized] grades as keys. *)
Definition framed (boroughs recognized : list string)
    (t : gmap string (gmap string Z)) : Prop :=
  (forall b, is_Some (t !! b) <-> b ∈ boroughs) /\
  (forall b row, t !! b = Some row ->
     forall g, is_Some (row !! g) <-> g ∈ recognized).

(** The rows of [borough_data] carry the four keys of the default row. *)
Definition rowed (t : gmap string (gmap string Z)) : Prop :=
  forall b row, t !! b = Some row ->
    forall k, is_Some (row !! k) <-> k ∈ ["A"; "B"; "C"; "other"].

(** The sum of the cells of one key over the rows of [borough_data]. *)
Definition rows_total (key : string) (t : gmap string (gmap string Z)) : Z :=
  sum ((fun row : gmap string Z => default 0 (row !! key))
         <$> (map_to_list t).*2).

(** A grade record the chart loops count: a known borough and a grade
    among A, B, C. *)
Definition matched (item : Grade.t) : Prop :=
  Grade.boro item ∈ DataVisualizer.boroughs /\
  upper (Grade.grade item) ∈ DataVisualizer.abc.

#[global] Instance matched_dec item : Decision (matched item).
Proof. unfold matched. apply _. Defined.

(** The key of the row of [borough_data] a grade record is added to. *)
Definition grade_key (item : Grade.t) : string :=
  if bool_decide (upper (Grade.grade item) ∈ ["A"; "B"; "C"])
  then upper (Grade.grade item) else "other".

(** ** The scenarios of the specification *)

Module Scenario.

Definition complaints : list Complaint.t :=
  [ Complaint.Make "Noise" (VStr "5");
    Complaint.Make "HEAT/HOT WATER" (VStr "3");
    Complaint.Make "Weird" (VStr "2") ].

Definition buckets : list (string * list string) :=
  [ ("Infrastructure", ["HEAT/HOT WATER"]);
    ("Noise", ["Noise"]);
    ("Other", []) ].

Definition grades : list Grade.t :=
  [ Grade.Make "Manhattan" "a" (VStr "10");
    Grade.Make "Mars" "A" (VStr "5") ].

(** A complaint whose count is a negative integer literal. *)
Definition negative_complaints : list Complaint.t :=
  [ Complaint.Make "Noise" (VStr "-5") ].

(** A grade A record outside the five boroughs, counted zero times, beside
    one inside them. *)
Definition zero_outside : list Grade.t :=
  [ Grade.Make "Manhattan" "A" (VStr "10");
    Grade.Make "Mars" "A" (VStr "0") ].

End Scenario.

(** * Properties *)

(** ** The Python fragments *)

Section PyFacts.

Lemma bind_ok {A B} (m : result A) (k : A -> result B) (b : B) :
  m ≫= k = Ok b <-> exists a, m = Ok a /\ k a = Ok b.
Proof.
  destruct m as [a|e]; simpl; split.
  - intros H. exists a. auto.
  - intros (a' & [= <-] & H). exact H.
  - intros [=].
  - intros (a' & [=] & _).
Qed.

Lemma for_each_cons_ok {S A} (body : S -> A -> result S) s s' x l :
  body s x = Ok s' -> for_each body s (x :: l) = for_each body s' l.
Proof. intros H. simpl. rewrite H. reflexivity. Qed.

Lemma for_each_cons_raise {S A} (body : S -> A -> result S) s e x l :
  body s x = Raise e -> for_each body s (x :: l) = Raise e.
Proof. intros H. simpl. rewrite H. reflexivity. Qed.

Lemma for_each_app {S A} (body : S -> A -> result S) (s : S) (l1 l2 : list A) :
  for_each body s (l1 ++ l2) = for_each body s l1 ≫= fun s' => for_each body s' l2.
Proof.
  revert s. induction l1 as [|x l1 IH]; intros s; simpl; [reflexivity|].
  destruct (body s x) as [s'|e]; simpl; [apply IH | reflexivity].
Qed.

Lemma for_each_ext {S A} (body : S -> A -> result S) (l l' : list A) :
  Forall2 (fun x y => forall s, body s x = body s y) l l' ->
  forall s, for_each body s l = for_each body s l'.
Proof.
  induction 1 as [|x y l l' Hxy _ IH]; intros s; simpl; [reflexivity|].
  rewrite Hxy. destruct (body s y); simpl; [apply IH | reflexivity].
Qed.

Lemma foldl_add (a : Z) (l : list Z) : foldl Z.add a l = a + sum l.
Proof.
  unfold sum. revert a. induction l as [|x l IH]; intros a; simpl; [lia|].
  rewrite (IH (a + x)), (IH (0 + x)). lia.
Qed.

Lemma sum_nil : sum [] = 0.
Proof. reflexivity. Qed.

Lemma sum_cons (x : Z) (l : list Z) : sum (x :: l) = x + sum l.
Proof. unfold sum at 1. simpl. rewrite foldl_add. lia. Qed.

Lemma sum_app (l1 l2 : list Z) : sum (l1 ++ l2) = sum l1 + sum l2.
Proof.
  induction l1 as [|x l1 IH]; simpl; [rewrite sum_nil; lia|].
  rewrite !sum_cons, IH. lia.
Qed.

Lemma sum_nonneg (l : list Z) : Forall (fun x => 0 <= x) l -> 0 <= sum l.
Proof.
  induction 1 as [|x l Hx _ IH]; [rewrite sum_nil; lia|].
  rewrite sum_cons. lia.
Qed.

Lemma numeric_int (v : value) : numeric v -> int v = Ok (int_value v).
Proof. unfold numeric, int_value. destruct (int v); [reflexivity | intros []]. Qed.

Lemma not_numeric_int (v : value) : ¬ numeric v -> int v = Raise ValueError.
Proof.
  unfold numeric. destruct v as [s|z]; simpl; [|intros H; destruct H; exact I].
  destruct (int_of_string s); [intros H; destruct H; exact I | reflexivity].
Qed.

Lemma map_each_numeric {A} (f : A -> value) (l : list A) :
  Forall (fun x => numeric (f x)) l ->
  map_each (fun x => int (f x)) l = Ok ((fun x => int_value (f x)) <$> l).
Proof.
  induction 1 as [|x l Hx _ IH]; simpl; [reflexivity|].
  rewrite (numeric_int _ Hx). simpl. rewrite IH. reflexivity.
Qed.

Lemma upper_ascii_idemp (a : ascii) : upper_ascii (upper_ascii a) = upper_ascii a.
Proof. destruct a as [[] [] [] [] [] [] [] []]; reflexivity. Qed.

Lemma upper_idemp (s : string) : upper (upper s) = upper s.
Proof.
  induction s as [|a s IH]; simpl; [reflexivity|].
  rewrite upper_ascii_idemp, IH. reflexivity.
Qed.

(** *** Dictionaries *)

Lemma zeros_cons (k : string) (keys : list string) :
  zeros (k :: keys) = <[k := 0]> (zeros keys).
Proof. reflexivity. Qed.

Lemma lookup_zeros_is_Some (keys : list string) (k : string) :
  is_Some (zeros keys !! k) <-> k ∈ keys.
Proof.
  induction keys as [|k' keys IH].
  - unfold zeros. simpl. rewrite lookup_empty, elem_of_nil.
    split; [intros [? [=]] | intros []].
  - rewrite zeros_cons, elem_of_cons, lookup_insert_is_Some, IH.
    destruct (decide (k' = k)) as [->|Hne]; [tauto|].
    split; [intros [H|[_ H]] | intros [H|H]]; auto; congruence.
Qed.

Lemma lookup_zeros_Some (keys : list string) (k : string) (v : Z) :
  zeros keys !! k = Some v -> v = 0.
Proof.
  induction keys as [|k' keys IH].
  - unfold zeros. simpl. rewrite lookup_empty. intros [=].
  - rewrite zeros_cons. destruct (decide (k' = k)) as [->|Hne].
    + rewrite lookup_insert_eq. congruence.
    + rewrite lookup_insert_ne by done. exact IH.
Qed.

Lemma lookup_zeros (keys : list string) (k : string) :
  k ∈ keys -> zeros keys !! k = Some 0.
Proof.
  intros Hk. apply lookup_zeros_is_Some in Hk as [v Hv].
  rewrite Hv. f_equal. exact (lookup_zeros_Some _ _ _ Hv).
Qed.

Lemma sum_values_empty : sum_values ∅ = 0.
Proof. unfold sum_values. apply map_fold_empty. Qed.

Lemma sum_values_insert_fresh (d : gmap string Z) (k : string) (v : Z) :
  d !! k = None -> sum_values (<[k := v]> d) = v + sum_values d.
Proof.
  intros Hk. unfold sum_values.
  apply (map_fold_insert_L (fun _ v acc => v + acc)); [|exact Hk].
  intros. lia.
Qed.

Lemma sum_values_insert (d : gmap string Z) (k : string) (v w : Z) :
  d !! k = Some v -> sum_values (<[k := w]> d) = sum_values d - v + w.
Proof.
  intros Hk.
  rewrite <- (insert_delete_id d k v Hk) at 2.
  rewrite <- (insert_delete_eq d k w).
  rewrite !sum_values_insert_fresh by apply lookup_delete_eq. lia.
Qed.

Lemma sum_values_zeros (keys : list string) : sum_values (zeros keys) = 0.
Proof.
  induction keys as [|k keys IH]; [apply sum_values_empty|].
  rewrite zeros_cons.
  destruct (zeros keys !! k) as [v|] eqn:Hk.
  - rewrite (sum_values_insert _ _ _ _ Hk), (lookup_zeros_Some _ _ _ Hk). lia.
  - rewrite sum_values_insert_fresh by exact Hk. lia.
Qed.

Lemma iadd_ok (k : string) (n v : Z) (d : gmap string Z) :
  d !! k = Some v -> iadd k n d = Ok (<[k := v + n]> d).
Proof. intros Hk. unfold iadd. rewrite Hk. reflexivity. Qed.

End PyFacts.

(** ** The complaint categories *)

Section CategoryFacts.

Import DataVisualizer.

Variable categories : list (string * list string).

Lemma keyed_zeros : keyed categories (zeros (categories.*1)).
Proof. intros k. apply lookup_zeros_is_Some. Qed.

Lemma keyed_insert (d : gmap string Z) (k : string) (v : Z) :
  keyed categories d -> is_Some (d !! k) -> keyed categories (<[k := v]> d).
Proof.
  intros Hd Hk k'. rewrite lookup_insert_is_Some, <- (Hd k').
  destruct (decide (k = k')) as [<-|Hne]; [tauto|].
  split; [intros [H|[_ H]] | intros H]; auto; congruence.
Qed.

Lemma first_category_elem (items : list (string * list string))
    (type category : string) :
  first_category items type = Some category -> category ∈ items.*1.
Proof.
  induction items as [|[name types] items IH]; simpl; [intros [=]|].
  case_bool_decide.
  - intros [= ->]. apply elem_of_cons. auto.
  - intros Hrest. apply elem_of_cons. auto.
Qed.

(** The scan with [break] finds the bucket the specification describes. *)
Lemma first_category_bucket_of (items : list (string * list string))
    (type catch_all : string) :
  default catch_all (first_category items type) = bucket_of items catch_all type.
Proof.
  unfold bucket_of.
  induction items as [|[name types] items IH]; simpl; [reflexivity|].
  rewrite filter_cons. simpl.
  case_bool_decide; case_decide; try reflexivity; try contradiction.
  exact IH.
Qed.

Hypothesis catch_all : "Other" ∈ categories.*1.

(** The bucket a complaint falls in is one of the declared keys. *)
Lemma bucket_of_elem (type : string) :
  bucket_of categories "Other" type ∈ categories.*1.
Proof.
  rewrite <- first_category_bucket_of.
  destruct (first_category categories type) as [category|] eqn:H; simpl.
  - eapply first_category_elem, H.
  - exact catch_all.
Qed.

(** One iteration adds the count to the bucket of the complaint and to no
    other. *)
Lemma categorize_ok (d : gmap string Z) (c : Complaint.t) :
  keyed categories d -> numeric (Complaint.count c) ->
  exists v,
    d !! bucket_of categories "Other" (Complaint.complaint_type c) = Some v /\
    categorize categories d c =
      Ok (<[bucket_of categories "Other" (Complaint.complaint_type c) :=
             v + int_value (Complaint.count c)]> d).
Proof.
  intros Hd Hc. unfold categorize. rewrite (numeric_int _ Hc). simpl.
  pose proof (bucket_of_elem (Complaint.complaint_type c)) as Hb.
  apply Hd in Hb as [v Hv]. exists v. split; [exact Hv|].
  rewrite <- first_category_bucket_of in Hv |- *.
  destruct (first_category categories (Complaint.complaint_type c));
    simpl in *; apply iadd_ok, Hv.
Qed.

Lemma categorize_raise (d : gmap string Z) (c : Complaint.t) :
  ¬ numeric (Complaint.count c) -> categorize categories d c = Raise ValueError.
Proof. intros Hc. unfold categorize. rewrite (not_numeric_int _ Hc). reflexivity. Qed.

(** The loop from any dictionary with the declared keys: each bucket grows
    by the counts of the complaints that fall in it. *)
Lemma for_each_categorize (complaints : list Complaint.t) :
  Forall (fun c => numeric (Complaint.count c)) complaints ->
  forall d, keyed categories d ->
  exists d',
    for_each (categorize categories) d complaints = Ok d' /\
    keyed categories d' /\
    sum_values d' =
      sum_values d + sum ((fun c => int_value (Complaint.count c)) <$> complaints) /\
    forall name v, d !! name = Some v ->
      d' !! name =
        Some (v + complaints_total
                    (fun c => bucket_of categories "Other"
                                (Complaint.complaint_type c) = name)
                    complaints).
Proof.
  induction 1 as [|c complaints Hc _ IH]; intros d Hd.
  - exists d. simpl. split; [reflexivity|]. split; [exact Hd|]. split.
    + rewrite sum_nil. lia.
    + intros name v Hv. unfold complaints_total. simpl.
      rewrite sum_nil, Z.add_0_r. exact Hv.
  - destruct (categorize_ok d c Hd Hc) as (v & Hv & Hstep).
    set (b := bucket_of categories "Other" (Complaint.complaint_type c)) in *.
    assert (Hd1 : keyed categories (<[b := v + int_value (Complaint.count c)]> d))
      by (apply keyed_insert; [exact Hd | eauto]).
    destruct (IH _ Hd1) as (d' & Hloop & Hd' & Hsum & Hcell).
    exists d'. rewrite (for_each_cons_ok _ _ _ _ _ Hstep).
    split; [exact Hloop|]. split; [exact Hd'|]. split.
    + rewrite Hsum, (sum_values_insert _ _ _ _ Hv), fmap_cons, sum_cons. lia.
    + intros name w Hw. unfold complaints_total in *.
      rewrite filter_cons. fold b. case_decide as Hname.
      * subst name. rewrite Hv in Hw. injection Hw as <-.
        rewrite (Hcell b _ (lookup_insert_eq _ _ _)).
        rewrite fmap_cons, sum_cons. f_equal. lia.
      * rewrite (Hcell name w); [reflexivity|].
        rewrite lookup_insert_ne by exact Hname. exact Hw.
Qed.

(** The loop stops with [ValueError] at a count [int] refuses. *)
Lemma for_each_categorize_raise (complaints : list Complaint.t) :
  Exists (fun c => ¬ numeric (Complaint.count c)) complaints ->
  forall d, keyed categories d ->
  for_each (categorize categories) d complaints = Raise ValueError.
Proof.
  induction 1 as [c complaints Hc|c complaints _ IH]; intros d Hd.
  - apply for_each_cons_raise, categorize_raise, Hc.
  - destruct (decide (numeric (Complaint.count c))) as [Hc|Hc].
    + destruct (categorize_ok d c Hd Hc) as (v & Hv & Hstep).
      rewrite (for_each_cons_ok _ _ _ _ _ Hstep).
      apply IH, keyed_insert; [exact Hd | eauto].
    + apply for_each_cons_raise, categorize_raise, Hc.
Qed.

End CategoryFacts.

Section CategoryClaims.

Import DataVisualizer.

Local Ltac known_key :=
  repeat first [apply list_elem_of_here | apply list_elem_of_further].

Lemma complaints_total_none (P : Complaint.t -> Prop)
    `{!forall c, Decision (P c)} (complaints : list Complaint.t) :
  Forall (fun c => ¬ P c) complaints -> complaints_total P complaints = 0.
Proof.
  unfold complaints_total. induction 1 as [|c complaints Hc _ IH]; [reflexivity|].
  rewrite filter_cons. case_decide; [contradiction | exact IH].
Qed.

(** C1: for every bucket table with the catch-all bucket and every list of
    complaint records with integer counts, the aggregation returns a
    dictionary whose totals sum to the sum of the counts of the records. *)
Theorem category_totals_account_for_every_count
    (categories : list (string * list string))
    (complaints : list Complaint.t) :
  "Other" ∈ categories.*1 ->
  Forall (fun c => numeric (Complaint.count c)) complaints ->
  exists d,
    category_counts categories complaints = Ok d /\
    sum_values d = sum ((fun c => int_value (Complaint.count c)) <$> complaints).
Proof.
  intros Hother Hnum.
  destruct (for_each_categorize categories Hother complaints Hnum _
              (keyed_zeros categories)) as (d & Hd & _ & Hsum & _).
  exists d. split; [exact Hd|].
  rewrite Hsum, sum_values_zeros. lia.
Qed.

Lemma category_totals_account_for_every_count_witness :
  exists d,
    category_counts Scenario.buckets Scenario.complaints = Ok d /\
    sum_values d = 10.
Proof.
  apply (category_totals_account_for_every_count
           Scenario.buckets Scenario.complaints).
  - simpl. known_key.
  - repeat constructor.
Defined.

(** C2: every record's count goes to the first bucket, in the order of the
    table, whose type list holds the record's type, and to the catch-all
    bucket when none does; on the scenario of the specification the result
    is Infrastructure 3, Noise 5, Other 2. *)
Theorem count_goes_to_first_matching_bucket :
  (forall (categories : list (string * list string))
          (complaints : list Complaint.t),
      "Other" ∈ categories.*1 ->
      Forall (fun c => numeric (Complaint.count c)) complaints ->
      exists d,
        category_counts categories complaints = Ok d /\
        forall name, name ∈ categories.*1 ->
          d !! name =
            Some (complaints_total
                    (fun c => bucket_of categories "Other"
                                (Complaint.complaint_type c) = name)
                    complaints)) /\
  category_counts Scenario.buckets Scenario.complaints =
    Ok (list_to_map [("Infrastructure", 3); ("Noise", 5); ("Other", 2)]).
Proof.
  split; [|vm_compute; reflexivity].
  intros categories complaints Hother Hnum.
  destruct (for_each_categorize categories Hother complaints Hnum _
              (keyed_zeros categories)) as (d & Hd & _ & _ & Hcell).
  exists d. split; [exact Hd|].
  intros name Hname.
  rewrite (Hcell name 0 (lookup_zeros _ _ Hname)). reflexivity.
Qed.

Lemma count_goes_to_first_matching_bucket_witness :
  exists d,
    category_counts categories Scenario.complaints = Ok d /\
    forall name, name ∈ categories.*1 ->
      d !! name =
        Some (complaints_total
                (fun c => bucket_of categories "Other"
                            (Complaint.complaint_type c) = name)
                Scenario.complaints).
Proof.
  apply (proj1 count_goes_to_first_matching_bucket).
  - simpl. known_key.
  - repeat constructor.
Defined.

(** C3, counterexample: a record whose count is the negative literal "-5"
    is an invalid record in the words of the specification, and the
    aggregation does not fail on it. *)
Lemma negative_count_is_not_rejected :
  ¬ ((exists e, category_counts categories Scenario.negative_complaints = Raise e)
     <-> Exists (fun c => invalid_count (Complaint.count c))
           Scenario.negative_complaints).
Proof.
  intros [_ Hfail].
  destruct Hfail as [e He].
  - apply Exists_cons_hd. exact I.
  - vm_compute in He. discriminate He.
Qed.

(** C3, amended: on records whose counts are integers or ASCII strings the
    aggregation fails exactly when some record has a count that [int]
    refuses, and then with [ValueError], its only failure; negative counts
    are added like any other.  On the empty list it returns every bucket
    with total zero. *)
Theorem category_counts_fails_on_non_numeric_only
    (categories : list (string * list string)) :
  "Other" ∈ categories.*1 ->
  (forall complaints,
      Forall (fun c => ascii_count (Complaint.count c)) complaints ->
      ((exists e, category_counts categories complaints = Raise e) <->
       Exists (fun c => ¬ numeric (Complaint.count c)) complaints) /\
      (forall e, category_counts categories complaints = Raise e ->
                 e = ValueError)) /\
  (exists d, category_counts categories [] = Ok d /\
             forall name, name ∈ categories.*1 -> d !! name = Some 0).
Proof.
  intros Hother. split.
  - intros complaints _.
    destruct (Forall_Exists_dec
                (fun c : Complaint.t => Is_true (numeric (Complaint.count c)))
                (fun c => decide (Is_true (numeric (Complaint.count c))))
                complaints)
      as [Hnum|Hbad].
    + destruct (for_each_categorize categories Hother complaints Hnum _
                  (keyed_zeros categories)) as (d & Hd & _).
      unfold category_counts. rewrite Hd. split.
      * split; [intros [e [=]]|].
        intros Hbad. apply Exists_exists in Hbad as (c & Hc & Hn).
        rewrite Forall_forall in Hnum. destruct (Hn (Hnum c Hc)).
      * intros e [=].
    + pose proof (for_each_categorize_raise categories Hother complaints Hbad _
                    (keyed_zeros categories)) as Hr.
      unfold category_counts. rewrite Hr. split.
      * split; [intros _; exact Hbad | intros _; eauto].
      * intros e [= <-]. reflexivity.
  - exists (zeros (categories.*1)). split; [reflexivity|].
    intros name. apply lookup_zeros.
Qed.

Lemma category_counts_fails_on_non_numeric_only_witness :
  (exists e, category_counts Scenario.buckets
               [Complaint.Make "Noise" (VStr "five")] = Raise e) <->
  Exists (fun c => ¬ numeric (Complaint.count c))
    [Complaint.Make "Noise" (VStr "five")].
Proof.
  apply (category_counts_fails_on_non_numeric_only Scenario.buckets).
  - simpl. known_key.
  - repeat constructor.
Defined.

(** C9: for every record list, the empty one included, every bucket name
    of the table is a key of the result, with total zero when no record
    fell in that bucket. *)
Theorem every_bucket_is_a_key
    (categories : list (string * list string))
    (complaints : list Complaint.t) :
  "Other" ∈ categories.*1 ->
  Forall (fun c => numeric (Complaint.count c)) complaints ->
  exists d,
    category_counts categories complaints = Ok d /\
    forall name, name ∈ categories.*1 ->
      exists total,
        d !! name = Some total /\
        (Forall (fun c => bucket_of categories "Other"
                            (Complaint.complaint_type c) <> name)
           complaints -> total = 0).
Proof.
  intros Hother Hnum.
  destruct (for_each_categorize categories Hother complaints Hnum _
              (keyed_zeros categories)) as (d & Hd & _ & _ & Hcell).
  exists d. split; [exact Hd|].
  intros name Hname. eexists. split.
  - apply (Hcell name 0), lookup_zeros, Hname.
  - intros Hnone. rewrite complaints_total_none by exact Hnone. lia.
Qed.

Lemma every_bucket_is_a_key_witness :
  exists d,
    category_counts categories Scenario.complaints = Ok d /\
    forall name, name ∈ categories.*1 ->
      exists total,
        d !! name = Some total /\
        (Forall (fun c => bucket_of categories "Other"
                            (Complaint.complaint_type c) <> name)
           Scenario.complaints ->
         total = 0).
Proof.
  apply (every_bucket_is_a_key categories Scenario.complaints).
  - simpl. known_key.
  - repeat constructor.
Defined.

End CategoryClaims.

(** ** The borough-and-grade table *)

Section GradeFacts.

Import DataVisualizer.

Variable boroughs : list string.
Variable recognized : list string.

Lemma zero_table_cons (b : string) (bs : list string) :
  zero_table (b :: bs) recognized =
    <[b := zeros recognized]> (zero_table bs recognized).
Proof. reflexivity. Qed.

Lemma lookup_zero_table_is_Some (b : string) :
  is_Some (zero_table boroughs recognized !! b) <-> b ∈ boroughs.
Proof.
  induction boroughs as [|b' bs IH].
  - unfold zero_table. simpl. rewrite lookup_empty, elem_of_nil.
    split; [intros [? [=]] | intros []].
  - rewrite zero_table_cons, elem_of_cons, lookup_insert_is_Some, IH.
    destruct (decide (b' = b)) as [->|Hne]; [tauto|].
    split; [intros [H|[_ H]] | intros [H|H]]; auto; congruence.
Qed.

Lemma lookup_zero_table_Some (b : string) (row : gmap string Z) :
  zero_table boroughs recognized !! b = Some row -> row = zeros recognized.
Proof.
  induction boroughs as [|b' bs IH].
  - unfold zero_table. simpl. rewrite lookup_empty. intros [=].
  - rewrite zero_table_cons. destruct (decide (b' = b)) as [->|Hne].
    + rewrite lookup_insert_eq. congruence.
    + rewrite lookup_insert_ne by done. exact IH.
Qed.

Lemma framed_zero_table : framed boroughs recognized (zero_table boroughs recognized).
Proof.
  split; [apply lookup_zero_table_is_Some|].
  intros b row Hrow g. rewrite (lookup_zero_table_Some _ _ Hrow).
  apply lookup_zeros_is_Some.
Qed.

Lemma cell_zero_table (b g : string) :
  b ∈ boroughs -> g ∈ recognized ->
  cell (zero_table boroughs recognized) b g = Ok 0.
Proof.
  intros Hb Hg. unfold cell.
  apply lookup_zero_table_is_Some in Hb as [row Hrow]. rewrite Hrow.
  rewrite (lookup_zero_table_Some _ _ Hrow), (lookup_zeros _ _ Hg). reflexivity.
Qed.

Lemma cell_ok (t : gmap string (gmap string Z)) (b g : string) (v : Z) :
  cell t b g = Ok v <-> exists row, t !! b = Some row /\ row !! g = Some v.
Proof.
  unfold cell. destruct (t !! b) as [row|]; [|split; [intros [=] | intros (? & [=] & _)]].
  destruct (row !! g) as [w|] eqn:Hw; split.
  - intros [= ->]. eauto.
  - intros (row' & [= <-] & H). congruence.
  - intros [=].
  - intros (row' & [= <-] & H). congruence.
Qed.

Lemma framed_cell (t : gmap string (gmap string Z)) (b g : string) :
  framed boroughs recognized t ->
  (exists v, cell t b g = Ok v) <-> b ∈ boroughs /\ g ∈ recognized.
Proof.
  intros [Hrows Hkeys]. split.
  - intros (v & (row & Hrow & Hv)%cell_ok). split.
    + apply Hrows. eauto.
    + apply (Hkeys b row Hrow). eauto.
  - intros [Hb Hg]. apply Hrows in Hb as [row Hrow].
    apply (Hkeys b row Hrow) in Hg as [v Hv].
    exists v. apply cell_ok. eauto.
Qed.

(** Writing one cell of a framed table. *)
Lemma framed_insert (t : gmap string (gmap string Z)) (b g : string)
    (row : gmap string Z) (v w : Z) :
  framed boroughs recognized t -> t !! b = Some row -> row !! g = Some v ->
  framed boroughs recognized (<[b := <[g := w]> row]> t).
Proof.
  intros [Hrows Hkeys] Hrow Hv. split.
  - intros b'. rewrite lookup_insert_is_Some, <- (Hrows b').
    destruct (decide (b = b')) as [<-|Hne]; [split; eauto|].
    split; [intros [H|[_ H]] | intros H]; auto; congruence.
  - intros b' row' Hrow' g'. destruct (decide (b = b')) as [<-|Hne].
    + rewrite lookup_insert_eq in Hrow'. injection Hrow' as <-.
      rewrite lookup_insert_is_Some, <- (Hkeys b row Hrow g').
      destruct (decide (g = g')) as [<-|Hg]; [split; eauto|].
      split; [intros [H|[_ H]] | intros H]; auto; congruence.
    + rewrite lookup_insert_ne in Hrow' by exact Hne.
      apply (Hkeys b' row' Hrow').
Qed.

Lemma cell_insert (t : gmap string (gmap string Z)) (b g b' g' : string)
    (row : gmap string Z) (w : Z) :
  t !! b = Some row ->
  cell (<[b := <[g := w]> row]> t) b' g' =
    if decide (b = b' /\ g = g') then Ok w else cell t b' g'.
Proof.
  intros Hrow. unfold cell. destruct (decide (b = b')) as [<-|Hb].
  - rewrite lookup_insert_eq, Hrow. destruct (decide (g = g')) as [<-|Hg].
    + rewrite lookup_insert_eq. rewrite decide_True by done. reflexivity.
    + rewrite lookup_insert_ne by exact Hg.
      rewrite decide_False by tauto. reflexivity.
  - rewrite lookup_insert_ne by exact Hb.
    rewrite decide_False by tauto. reflexivity.
Qed.

(** One iteration: a matched record is added to its cell, any other record
    leaves the table as it is. *)
Lemma tally_ok (t : gmap string (gmap string Z)) (item : Grade.t) :
  framed boroughs recognized t -> numeric (Grade.count item) ->
  if decide (Grade.boro item ∈ boroughs /\ upper (Grade.grade item) ∈ recognized)
  then exists row v,
      t !! Grade.boro item = Some row /\
      row !! upper (Grade.grade item) = Some v /\
      tally recognized t item =
        Ok (<[Grade.boro item :=
                <[upper (Grade.grade item) := v + int_value (Grade.count item)]> row]> t)
  else tally recognized t item = Ok t.
Proof.
  intros [Hrows Hkeys] Hnum. unfold tally. rewrite (numeric_int _ Hnum). simpl.
  case_decide as Hm.
  - destruct Hm as [Hb Hg].
    apply Hrows in Hb as Hb'. destruct Hb' as [row Hrow].
    apply (Hkeys _ row Hrow) in Hg as Hg'. destruct Hg' as [v Hv].
    exists row, v. split; [exact Hrow|]. split; [exact Hv|].
    rewrite bool_decide_true by eauto. rewrite bool_decide_true by exact Hg.
    simpl. unfold cell_iadd. rewrite Hrow, (iadd_ok _ _ _ _ Hv). reflexivity.
  - case_bool_decide as Hb; [|reflexivity].
    case_bool_decide as Hg; [|reflexivity].
    destruct Hm. split; [apply Hrows, Hb | exact Hg].
Qed.

Lemma tally_raise (t : gmap string (gmap string Z)) (item : Grade.t) :
  ¬ numeric (Grade.count item) -> tally recognized t item = Raise ValueError.
Proof. intros Hn. unfold tally. rewrite (not_numeric_int _ Hn). reflexivity. Qed.

(** The frame of the table is kept whenever an iteration returns. *)
Lemma tally_framed (t t' : gmap string (gmap string Z)) (item : Grade.t) :
  framed boroughs recognized t -> tally recognized t item = Ok t' ->
  framed boroughs recognized t'.
Proof.
  intros Ht Hstep.
  destruct (decide (numeric (Grade.count item))) as [Hnum|Hnum];
    [|rewrite (tally_raise _ _ Hnum) in Hstep; discriminate Hstep].
  pose proof (tally_ok t item Ht Hnum) as Hok. case_decide.
  - destruct Hok as (row & v & Hrow & Hv & Heq).
    rewrite Heq in Hstep. injection Hstep as <-.
    eapply framed_insert; eauto.
  - rewrite Hok in Hstep. injection Hstep as <-. exact Ht.
Qed.

Lemma for_each_tally_framed (grades : list Grade.t) :
  forall t t', framed boroughs recognized t ->
    for_each (tally recognized) t grades = Ok t' ->
    framed boroughs recognized t'.
Proof.
  induction grades as [|item grades IH]; intros t t' Ht; simpl.
  - intros [= <-]. exact Ht.
  - intros (t1 & Hstep & Hrest)%bind_ok.
    eapply IH; [|exact Hrest]. eapply tally_framed; eauto.
Qed.

(** The loop from any framed table: each cell grows by the counts of the
    records of its borough and grade. *)
Lemma for_each_tally (grades : list Grade.t) :
  Forall (fun item => numeric (Grade.count item)) grades ->
  forall t, framed boroughs recognized t ->
  exists t',
    for_each (tally recognized) t grades = Ok t' /\
    forall b g v, cell t b g = Ok v ->
      cell t' b g =
        Ok (v + grades_total
                  (fun item => Grade.boro item = b /\
                               upper (Grade.grade item) = g)
                  grades).
Proof.
  induction 1 as [|item grades Hnum _ IH]; intros t Ht.
  - exists t. split; [reflexivity|].
    intros b g v Hv. unfold grades_total. simpl.
    rewrite sum_nil, Z.add_0_r. exact Hv.
  - pose proof (tally_ok t item Ht Hnum) as Hok. case_decide as Hm.
    + destruct Hok as (row & w & Hrow & Hw & Hstep).
      assert (Ht1 := framed_insert t _ _ row w
                       (w + int_value (Grade.count item)) Ht Hrow Hw).
      destruct (IH _ Ht1) as (t' & Hloop & Hcell).
      exists t'. rewrite (for_each_cons_ok _ _ _ _ _ Hstep).
      split; [exact Hloop|].
      intros b g v Hv. unfold grades_total in *.
      rewrite filter_cons. case_decide as Hbg.
      * destruct Hbg as [<- <-].
        assert (v = w) as ->.
        { apply cell_ok in Hv as (row' & Hrow' & Hv). congruence. }
        rewrite (Hcell _ _ (w + int_value (Grade.count item))).
        -- rewrite fmap_cons, sum_cons. f_equal. lia.
        -- rewrite (cell_insert _ _ _ _ _ _ _ Hrow).
           rewrite decide_True by done. reflexivity.
      * apply Hcell. rewrite (cell_insert _ _ _ _ _ _ _ Hrow).
        rewrite decide_False by exact Hbg. exact Hv.
    + destruct (IH _ Ht) as (t' & Hloop & Hcell).
      exists t'. rewrite (for_each_cons_ok _ _ _ _ _ Hok).
      split; [exact Hloop|].
      intros b g v Hv. unfold grades_total in *.
      rewrite filter_cons. case_decide as Hbg; [|apply Hcell, Hv].
      destruct Hbg as [<- <-]. destruct Hm.
      apply (framed_cell t _ _ Ht). eauto.
Qed.

End GradeFacts.

Section GradeClaims.

Import DataVisualizer.

Local Ltac by_decide :=
  match goal with
  | |- ?P => apply (bool_decide_unpack P); vm_compute; exact I
  end.

Lemma elem_of_cells (t : gmap string (gmap string Z)) (b g : string) (v : Z) :
  (b, g, v) ∈ cells t <-> cell t b g = Ok v.
Proof.
  unfold cells. rewrite list_elem_of_bind, cell_ok. split.
  - intros ([b' row] & Hin & Hrow%elem_of_map_to_list).
    apply list_elem_of_fmap in Hin as ([g' v'] & [= -> -> ->] & Hv%elem_of_map_to_list).
    eauto.
  - intros (row & Hrow & Hv). exists (b, row). split.
    + apply list_elem_of_fmap. exists (g, v). split; [reflexivity|].
      apply elem_of_map_to_list, Hv.
    + apply elem_of_map_to_list, Hrow.
Qed.

Lemma length_cells (t : gmap string (gmap string Z)) (n : nat) :
  (forall b row, t !! b = Some row -> size row = n) ->
  length (cells t) = (size t * n)%nat.
Proof.
  intros Hrows. unfold cells. rewrite <- (length_map_to_list t).
  assert (Hall : Forall (fun p => size p.2 = n) (map_to_list t)).
  { apply Forall_forall. intros [b row] Hin%list_elem_of_In. apply (Hrows b).
    apply elem_of_map_to_list, Hin. }
  induction Hall as [|[b row] l Hrow _ IH]; [reflexivity|].
  rewrite bind_cons, length_app, length_fmap, IH, length_map_to_list.
  simpl in Hrow. simpl. lia.
Qed.

Lemma framed_size (boroughs recognized : list string)
    (t : gmap string (gmap string Z)) :
  NoDup boroughs -> NoDup recognized -> framed boroughs recognized t ->
  size t = length boroughs /\
  forall b row, t !! b = Some row -> size row = length recognized.
Proof.
  intros Hb Hg [Hrows Hkeys]. split.
  - rewrite <- (size_list_to_set (C := gset string) boroughs Hb), <- size_dom.
    f_equal. apply set_eq. intros b.
    rewrite elem_of_dom, elem_of_list_to_set. apply Hrows.
  - intros b row Hrow.
    rewrite <- (size_list_to_set (C := gset string) recognized Hg), <- size_dom.
    f_equal. apply set_eq. intros g.
    rewrite elem_of_dom, elem_of_list_to_set. apply (Hkeys b row Hrow).
Qed.

Lemma grades_total_none (P : Grade.t -> Prop)
    `{!forall g, Decision (P g)} (grades : list Grade.t) :
  Forall (fun g => ¬ P g) grades -> grades_total P grades = 0.
Proof.
  unfold grades_total. induction 1 as [|g grades Hg _ IH]; [reflexivity|].
  rewrite filter_cons. case_decide; [contradiction | exact IH].
Qed.

(** C4: for every record list with integer counts the table has exactly
    [len(boroughs) * len(recognized)] cells, one for every declared pair of
    borough and grade and no other, and a cell no record falls in is 0. *)
Theorem grade_table_is_dense
    (boroughs recognized : list string) (grades : list Grade.t) :
  NoDup boroughs -> NoDup recognized ->
  Forall (fun item => numeric (Grade.count item)) grades ->
  exists t,
    grade_counts boroughs recognized grades = Ok t /\
    length (cells t) = (length boroughs * length recognized)%nat /\
    (forall b g, (exists v, (b, g, v) ∈ cells t) <->
                 b ∈ boroughs /\ g ∈ recognized) /\
    (forall b g, b ∈ boroughs -> g ∈ recognized ->
       Forall (fun item => ¬ (Grade.boro item = b /\
                              upper (Grade.grade item) = g)) grades ->
       (b, g, 0) ∈ cells t).
Proof.
  intros Hb Hg Hnum.
  pose proof (framed_zero_table boroughs recognized) as H0.
  destruct (for_each_tally boroughs recognized grades Hnum _ H0)
    as (t & Hloop & Hcell).
  pose proof (for_each_tally_framed boroughs recognized grades _ _ H0 Hloop) as Ht.
  exists t. split; [exact Hloop|]. split; [|split].
  - destruct (framed_size boroughs recognized t Hb Hg Ht) as [Hsize Hrow].
    rewrite (length_cells t _ Hrow), Hsize. reflexivity.
  - intros b g. rewrite <- (framed_cell boroughs recognized t b g Ht).
    split; intros [v Hv]; exists v; apply elem_of_cells, Hv.
  - intros b g Hbb Hgg Hnone. apply elem_of_cells.
    rewrite (Hcell b g 0 (cell_zero_table boroughs recognized b g Hbb Hgg)).
    rewrite grades_total_none by exact Hnone. reflexivity.
Qed.

Lemma grade_table_is_dense_witness :
  exists t,
    grade_counts boroughs abc Scenario.grades = Ok t /\
    length (cells t) = 15%nat /\
    (forall b g, (exists v, (b, g, v) ∈ cells t) <-> b ∈ boroughs /\ g ∈ abc) /\
    (forall b g, b ∈ boroughs -> g ∈ abc ->
       Forall (fun item => ¬ (Grade.boro item = b /\
                              upper (Grade.grade item) = g)) Scenario.grades ->
       (b, g, 0) ∈ cells t).
Proof.
  apply (grade_table_is_dense boroughs abc Scenario.grades).
  - by_decide.
  - by_decide.
  - repeat constructor.
Defined.

Lemma tally_unmatched (boroughs recognized : list string)
    (t : gmap string (gmap string Z)) (item : Grade.t) :
  framed boroughs recognized t -> numeric (Grade.count item) ->
  ¬ (Grade.boro item ∈ boroughs /\ upper (Grade.grade item) ∈ recognized) ->
  tally recognized t item = Ok t.
Proof.
  intros Ht Hnum Hm.
  pose proof (tally_ok boroughs recognized t item Ht Hnum) as Hok.
  rewrite decide_False in Hok by exact Hm. exact Hok.
Qed.

(** C5: with integer counts the aggregation returns whatever the boroughs
    and grades of the records are, and a record whose borough is not a
    known one or whose grade is not recognised changes nothing: the result
    is that of the list without it.  On the scenario of the specification
    the cell (Manhattan, A) is 10, Mars has no row, every other cell is 0. *)
Theorem unmatched_records_are_skipped :
  (forall boroughs recognized grades,
      Forall (fun item => numeric (Grade.count item)) grades ->
      exists t, grade_counts boroughs recognized grades = Ok t) /\
  (forall boroughs recognized grades1 item grades2,
      numeric (Grade.count item) ->
      ¬ (Grade.boro item ∈ boroughs /\
         upper (Grade.grade item) ∈ recognized) ->
      grade_counts boroughs recognized (grades1 ++ item :: grades2) =
        grade_counts boroughs recognized (grades1 ++ grades2)) /\
  (exists t,
      grade_counts boroughs abc Scenario.grades = Ok t /\
      cell t "Manhattan" "A" = Ok 10 /\
      t !! "Mars" = None /\
      forall b g v, (b, g, v) ∈ cells t ->
        (b, g) <> ("Manhattan", "A") -> v = 0).
Proof.
  split; [|split].
  - intros boroughs recognized grades Hnum.
    destruct (for_each_tally boroughs recognized grades Hnum _
                (framed_zero_table boroughs recognized)) as (t & Hloop & _).
    eauto.
  - intros boroughs recognized grades1 item grades2 Hnum Hm.
    unfold grade_counts. rewrite !for_each_app.
    destruct (for_each (tally recognized) (zero_table boroughs recognized) grades1)
      as [t1|e] eqn:H1; [|reflexivity].
    simpl. apply for_each_cons_ok, (tally_unmatched boroughs); [|exact Hnum|exact Hm].
    exact (for_each_tally_framed boroughs recognized grades1 _ _
             (framed_zero_table boroughs recognized) H1).
  - assert (Hnum : Forall (fun item => numeric (Grade.count item)) Scenario.grades)
      by repeat constructor.
    pose proof (framed_zero_table boroughs abc) as H0.
    destruct (for_each_tally boroughs abc Scenario.grades Hnum _ H0)
      as (t & Hloop & Hcell).
    pose proof (for_each_tally_framed boroughs abc Scenario.grades _ _ H0 Hloop)
      as Ht.
    exists t. split; [exact Hloop|]. split; [|split].
    + rewrite (Hcell "Manhattan" "A" 0); [reflexivity|].
      apply cell_zero_table; by_decide.
    + destruct (t !! "Mars") eqn:Hmars; [|reflexivity].
      assert (Hin : "Mars" ∈ boroughs) by (apply Ht; eauto).
      revert Hin. by_decide.
    + intros b g v Hv%elem_of_cells Hne.
      assert (Hbg : b ∈ boroughs /\ g ∈ abc)
        by (apply (framed_cell boroughs abc t b g Ht); eauto).
      destruct Hbg as [Hb Hg].
      rewrite (Hcell b g 0 (cell_zero_table boroughs abc b g Hb Hg)) in Hv.
      injection Hv as <-. unfold grades_total, Scenario.grades.
      rewrite !filter_cons, filter_nil.
      repeat case_decide;
        repeat match goal with H : _ /\ _ |- _ => destruct H end;
        subst; try reflexivity; try discriminate;
        first [ destruct Hne; reflexivity | exfalso; revert Hb; by_decide ].
Qed.

Lemma unmatched_records_are_skipped_witness :
  grade_counts boroughs abc ([] ++ Grade.Make "Mars" "A" (VStr "5") :: []) =
    grade_counts boroughs abc ([] ++ []).
Proof.
  apply (proj1 (proj2 unmatched_records_are_skipped)).
  - exact I.
  - intros [Hb _]. revert Hb. by_decide.
Defined.

Lemma tally_with_upper_grade (recognized : list string)
    (t : gmap string (gmap string Z)) (item : Grade.t) :
  tally recognized t (with_upper_grade item) = tally recognized t item.
Proof. unfold tally, with_upper_grade. simpl. rewrite upper_idemp. reflexivity. Qed.

(** C8: the grade is uppercased before it is matched, so replacing the
    grade of any records by its uppercase form leaves the result unchanged;
    a record with grade "a" is counted in the A cell. *)
Theorem grade_matching_ignores_case :
  (forall boroughs recognized sel grades,
      grade_counts boroughs recognized (uppercase_where sel grades) =
        grade_counts boroughs recognized grades) /\
  (grade_counts boroughs abc [Grade.Make "Manhattan" "a" (VStr "10")]
     ≫= fun t => cell t "Manhattan" "A") = Ok 10.
Proof.
  split; [|vm_compute; reflexivity].
  intros boroughs recognized sel grades. unfold grade_counts, uppercase_where.
  generalize (zero_table boroughs recognized). revert sel.
  induction grades as [|item grades IH]; intros sel t; [reflexivity|].
  rewrite imap_cons. simpl.
  replace (tally recognized t (if sel 0%nat then with_upper_grade item else item))
    with (tally recognized t item)
    by (destruct (sel 0%nat); [symmetry; apply tally_with_upper_grade | reflexivity]).
  destruct (tally recognized t item) as [t1|e]; [|reflexivity].
  simpl. apply (IH (sel ∘ S)).
Qed.

End GradeClaims.

(** ** Overall grade totals against the per-borough table *)

Section PieFacts.

Import DataVisualizer.

Lemma bind_Ok {A B} (a : A) (k : A -> result B) : Ok a ≫= k = k a.
Proof. reflexivity. Qed.

Lemma map_each_ok {A B} (f : A -> result B) (g : A -> B) (l : list A) :
  Forall (fun x => f x = Ok (g x)) l -> map_each f l = Ok (g <$> l).
Proof.
  induction 1 as [|x l Hx _ IH]; [reflexivity|].
  simpl. rewrite Hx, bind_Ok, IH. reflexivity.
Qed.

Lemma Forall_filter_keeps {A} (P : A -> Prop) (Q : A -> Prop)
    `{!forall x, Decision (Q x)} (l : list A) :
  Forall P l -> Forall P (filter Q l).
Proof.
  induction 1 as [|x l Hx _ IH]; [constructor|].
  rewrite filter_cons. case_decide; [constructor|]; assumption.
Qed.

Lemma grades_total_cons (P : Grade.t -> Prop)
    `{!forall g, Decision (P g)} (g : Grade.t) (grades : list Grade.t) :
  grades_total P (g :: grades) =
    (if decide (P g) then int_value (Grade.count g) else 0) +
    grades_total P grades.
Proof.
  unfold grades_total. rewrite filter_cons. case_decide; [|lia].
  rewrite fmap_cons, sum_cons. reflexivity.
Qed.

Lemma grades_total_nonneg (P : Grade.t -> Prop)
    `{!forall g, Decision (P g)} (grades : list Grade.t) :
  Forall (fun g => 0 <= int_value (Grade.count g)) grades ->
  0 <= grades_total P grades.
Proof.
  induction 1 as [|g grades Hg _ IH]; [unfold grades_total; simpl; rewrite sum_nil; lia|].
  rewrite grades_total_cons. case_decide; lia.
Qed.

Lemma grades_total_pos (P : Grade.t -> Prop)
    `{!forall g, Decision (P g)} (grades : list Grade.t) :
  Forall (fun g => 0 <= int_value (Grade.count g)) grades ->
  Exists (fun g => P g /\ 0 < int_value (Grade.count g)) grades ->
  0 < grades_total P grades.
Proof.
  intros Hall Hex. induction Hex as [g grades [Hp Hpos]|g grades _ IH];
    rewrite grades_total_cons; inversion_clear Hall as [|? ? Hg Hrest].
  - pose proof (grades_total_nonneg P grades Hrest).
    rewrite decide_True by exact Hp. lia.
  - specialize (IH Hrest). case_decide; lia.
Qed.

(** The generator expression of the pie under integer counts. *)
Lemma grade_total_ok (letter : string) (grades : list Grade.t) :
  Forall (fun g => numeric (Grade.count g)) grades ->
  grade_total letter grades =
    Ok (grades_total (fun g => upper (Grade.grade g) = letter) grades).
Proof.
  intros Hnum. unfold grade_total, grades_total.
  rewrite (map_each_numeric Grade.count); [reflexivity|].
  apply Forall_filter_keeps, Hnum.
Qed.

Lemma sum_fmap_zero {A} (l : list A) : sum ((fun _ => 0) <$> l) = 0.
Proof.
  induction l as [|x l IH]; [reflexivity|].
  rewrite fmap_cons, sum_cons, IH. reflexivity.
Qed.

Lemma sum_fmap_add {A} (f g : A -> Z) (l : list A) :
  sum ((fun x => f x + g x) <$> l) = sum (f <$> l) + sum (g <$> l).
Proof.
  induction l as [|x l IH]; [reflexivity|].
  rewrite !fmap_cons, !sum_cons, IH. lia.
Qed.

(** A record is counted under at most one borough of a duplicate-free
    list. *)
Lemma sum_fmap_indicator (bs : list string) (x : string) (Q : Prop)
    `{!Decision Q} (c : Z) :
  NoDup bs ->
  sum ((fun b => if decide (x = b /\ Q) then c else 0) <$> bs) =
    if decide (x ∈ bs /\ Q) then c else 0.
Proof.
  induction 1 as [|b bs Hb _ IH].
  - rewrite decide_False; [reflexivity|]. intros [[]%elem_of_nil _].
  - rewrite fmap_cons, sum_cons, IH.
    destruct (decide (x = b /\ Q)) as [[-> Hq]|Hxb].
    + rewrite decide_False by tauto.
      rewrite decide_True; [lia|]. split; [apply list_elem_of_here | exact Hq].
    + destruct (decide (x ∈ bs /\ Q)) as [[Hin Hq]|Hn].
      * rewrite decide_True; [lia|]. split; [apply list_elem_of_further, Hin | exact Hq].
      * rewrite decide_False; [lia|].
        intros [[->|Hin]%elem_of_cons Hq]; tauto.
Qed.

(** Summing a column over the boroughs counts the records of the grade
    whose borough is one of them. *)
Lemma sum_column (bs : list string) (letter : string) (grades : list Grade.t) :
  NoDup bs ->
  sum ((fun b => grades_total
                   (fun item => Grade.boro item = b /\
                                upper (Grade.grade item) = letter) grades) <$> bs) =
    grades_total (fun item => Grade.boro item ∈ bs /\
                              upper (Grade.grade item) = letter) grades.
Proof.
  intros Hbs. induction grades as [|g grades IH].
  - unfold grades_total. simpl. rewrite sum_nil. apply sum_fmap_zero.
  - rewrite grades_total_cons, <- IH.
    rewrite <- (sum_fmap_indicator bs (Grade.boro g)
                  (upper (Grade.grade g) = letter)
                  (int_value (Grade.count g)) Hbs).
    rewrite <- sum_fmap_add. f_equal.
    apply list_fmap_ext. intros _ b _. apply grades_total_cons.
Qed.

(** The records of a grade are those inside the five boroughs and those
    outside. *)
Lemma grades_total_split (letter : string) (grades : list Grade.t) :
  grades_total (fun g => upper (Grade.grade g) = letter) grades =
    grades_total (fun item => Grade.boro item ∈ boroughs /\
                              upper (Grade.grade item) = letter) grades +
    grades_total (outside letter) grades.
Proof.
  induction grades as [|g grades IH]; [reflexivity|].
  rewrite !grades_total_cons, IH. unfold outside.
  repeat case_decide; try lia; tauto.
Qed.

(** The columns of the table built by the loop. *)
Lemma column_ok (bs recognized : list string) (letter : string)
    (grades : list Grade.t) (t : gmap string (gmap string Z)) :
  letter ∈ recognized ->
  Forall (fun g => numeric (Grade.count g)) grades ->
  grade_counts bs recognized grades = Ok t ->
  column bs t letter =
    Ok ((fun b => grades_total
                    (fun item => Grade.boro item = b /\
                                 upper (Grade.grade item) = letter) grades) <$> bs).
Proof.
  intros Hletter Hnum Ht.
  destruct (for_each_tally bs recognized grades Hnum _
              (framed_zero_table bs recognized)) as (t' & Hloop & Hcell).
  unfold grade_counts in Ht. rewrite Hloop in Ht. injection Ht as ->.
  unfold column. apply map_each_ok, Forall_forall.
  intros b Hb%list_elem_of_In.
  rewrite (Hcell b letter 0 (cell_zero_table bs recognized b letter Hb Hletter)).
  reflexivity.
Qed.

Lemma exceeds_by_outside_intro (letter : string) (grades : list Grade.t) :
  Forall (fun g => 0 <= int_value (Grade.count g)) grades ->
  exceeds_by_outside letter grades
    (grades_total (fun g => upper (Grade.grade g) = letter) grades)
    ((fun b => grades_total
                 (fun item => Grade.boro item = b /\
                              upper (Grade.grade item) = letter) grades)
       <$> boroughs).
Proof.
  intros Hpos. unfold exceeds_by_outside.
  assert (Hbs : NoDup boroughs) by (apply (bool_decide_unpack _); vm_compute; exact I).
  rewrite (sum_column boroughs letter grades Hbs), (grades_total_split letter grades).
  pose proof (grades_total_nonneg (outside letter) grades Hpos).
  split; [reflexivity|]. split; [assumption|]. split; [lia|].
  intros Hex. pose proof (grades_total_pos (outside letter) grades Hpos Hex). lia.
Qed.

End PieFacts.

Section PieClaims.

Import DataVisualizer.

Local Ltac by_decide :=
  match goal with
  | |- ?P => apply (bool_decide_unpack P); vm_compute; exact I
  end.

Lemma create_grade_distribution_pie_nonempty (grades : list Grade.t) :
  grades <> [] ->
  create_grade_distribution_pie grades =
    (total_a ← grade_total "A" grades;
     total_b ← grade_total "B" grades;
     total_c ← grade_total "C" grades;
     Ok (Some [total_a; total_b; total_c])).
Proof. destruct grades; [contradiction | reflexivity]. Qed.

Lemma create_restaurant_grades_chart_nonempty (grades : list Grade.t) :
  grades <> [] ->
  create_restaurant_grades_chart grades =
    (grade_counts ← grade_counts boroughs abc grades;
     a_counts ← column boroughs grade_counts "A";
     b_counts ← column boroughs grade_counts "B";
     c_counts ← column boroughs grade_counts "C";
     Ok (Some (GradesChart a_counts b_counts c_counts))).
Proof. destruct grades; [contradiction | reflexivity]. Qed.

(** C10, counterexample: a grade A record from outside the five boroughs
    with count 0 is on the list, after a record of Manhattan, and the pie
    reports exactly the column sums of the stacked bars. *)
Lemma zero_count_outside_record_keeps_totals_equal :
  Exists (fun item => upper (Grade.grade item) ∈ abc /\
                      Grade.boro item ∉ boroughs) Scenario.zero_outside /\
  exists chart,
    create_restaurant_grades_chart Scenario.zero_outside = Ok (Some chart) /\
    create_grade_distribution_pie Scenario.zero_outside =
      Ok (Some [sum (a_counts chart); sum (b_counts chart); sum (c_counts chart)]).
Proof.
  split.
  - apply Exists_cons_tl, Exists_cons_hd. split; by_decide.
  - eexists. split; vm_compute; reflexivity.
Qed.

(** C10, amended: for a non-empty list of grade records with non-negative
    integer counts, each overall total of the pie is the sum of the chart
    column of that grade plus the counts of the records of that grade whose
    borough is none of the five; so it is at least the column sum, equal to
    it exactly when those counts sum to zero, and greater as soon as one
    such record has a positive count. *)
Theorem pie_totals_exceed_chart_columns_by_outside_counts
    (grades : list Grade.t) :
  grades <> [] ->
  Forall (fun g => numeric (Grade.count g)) grades ->
  Forall (fun g => 0 <= int_value (Grade.count g)) grades ->
  exists total_a total_b total_c chart,
    create_grade_distribution_pie grades =
      Ok (Some [total_a; total_b; total_c]) /\
    create_restaurant_grades_chart grades = Ok (Some chart) /\
    exceeds_by_outside "A" grades total_a (a_counts chart) /\
    exceeds_by_outside "B" grades total_b (b_counts chart) /\
    exceeds_by_outside "C" grades total_c (c_counts chart).
Proof.
  intros Hne Hnum Hpos.
  destruct (for_each_tally boroughs abc grades Hnum _
              (framed_zero_table boroughs abc)) as (t & Ht & _).
  change (grade_counts boroughs abc grades = Ok t) in Ht.
  do 3 eexists. eexists (GradesChart _ _ _).
  rewrite (create_grade_distribution_pie_nonempty grades Hne).
  rewrite (create_restaurant_grades_chart_nonempty grades Hne).
  rewrite !(grade_total_ok _ grades Hnum), Ht, !bind_Ok.
  rewrite (column_ok boroughs abc "A" grades t), bind_Ok;
    [|by_decide|exact Hnum|exact Ht].
  rewrite (column_ok boroughs abc "B" grades t), bind_Ok;
    [|by_decide|exact Hnum|exact Ht].
  rewrite (column_ok boroughs abc "C" grades t), bind_Ok;
    [|by_decide|exact Hnum|exact Ht].
  split; [reflexivity|]. split; [reflexivity|]. simpl.
  repeat split; apply exceeds_by_outside_intro, Hpos.
Qed.

Lemma pie_totals_exceed_chart_columns_by_outside_counts_witness :
  exists total_a total_b total_c chart,
    create_grade_distribution_pie Scenario.grades =
      Ok (Some [total_a; total_b; total_c]) /\
    create_restaurant_grades_chart Scenario.grades = Ok (Some chart) /\
    exceeds_by_outside "A" Scenario.grades total_a (a_counts chart) /\
    exceeds_by_outside "B" Scenario.grades total_b (b_counts chart) /\
    exceeds_by_outside "C" Scenario.grades total_c (c_counts chart).
Proof.
  apply (pie_totals_exceed_chart_columns_by_outside_counts Scenario.grades).
  - discriminate.
  - repeat constructor.
  - repeat constructor; vm_compute; discriminate.
Defined.

End PieClaims.

(** ** Sorting and truncation *)

Section SortedFacts.

Import DataVisualizer.

Context {A : Type} (key : A -> Z).

Lemma insert_desc_Permutation (x : A) (l : list A) :
  insert_desc key x l ≡ₚ x :: l.
Proof.
  induction l as [|y l IH]; simpl; [reflexivity|].
  destruct (key x <? key y); [|reflexivity].
  rewrite IH. apply perm_swap.
Qed.

Lemma sorted_desc_Permutation (l : list A) : sorted_desc key l ≡ₚ l.
Proof.
  induction l as [|x l IH]; simpl; [reflexivity|].
  rewrite insert_desc_Permutation, IH. reflexivity.
Qed.

Lemma insert_desc_StronglySorted (x : A) (l : list A) :
  StronglySorted (descending key) l -> StronglySorted (descending key) (insert_desc key x l).
Proof.
  induction 1 as [|y l Hl IH Hy]; simpl.
  - repeat constructor.
  - destruct (Z.ltb_spec (key x) (key y)) as [Hlt|Hge].
    + constructor; [exact IH|].
      rewrite insert_desc_Permutation. constructor; [unfold descending; lia | exact Hy].
    + constructor; [constructor; assumption|].
      constructor; [exact Hge|].
      eapply Forall_impl; [|exact Hy]. unfold descending. intros z Hz. lia.
Qed.

Lemma sorted_desc_StronglySorted (l : list A) :
  StronglySorted (descending key) (sorted_desc key l).
Proof.
  induction l as [|x l IH]; simpl; [constructor|].
  apply insert_desc_StronglySorted, IH.
Qed.

(** Among the records of one key the input order is kept. *)
Lemma insert_desc_stable (k : Z) (x : A) (l : list A) :
  filter (fun y => key y = k) (insert_desc key x l) =
  filter (fun y => key y = k) (x :: l).
Proof.
  induction l as [|y l IH]; simpl; [reflexivity|].
  destruct (Z.ltb_spec (key x) (key y)) as [Hlt|Hge]; [|reflexivity].
  rewrite (filter_cons _ y), IH, !(filter_cons _ x), (filter_cons _ y).
  repeat case_decide; try reflexivity. lia.
Qed.

Lemma sorted_desc_stable (k : Z) (l : list A) :
  filter (fun y => key y = k) (sorted_desc key l) =
  filter (fun y => key y = k) l.
Proof.
  induction l as [|x l IH]; simpl; [reflexivity|].
  rewrite insert_desc_stable, !(filter_cons _ x), IH. reflexivity.
Qed.

(** Sorting changes nothing on a list already in descending order. *)
Lemma sorted_desc_fixed (l : list A) :
  StronglySorted (descending key) l -> sorted_desc key l = l.
Proof.
  induction 1 as [|x l Hl IH Hx]; simpl; [reflexivity|].
  rewrite IH. destruct Hx as [|y l Hy _]; simpl; [reflexivity|].
  destruct (Z.ltb_spec (key x) (key y)) as [Hlt|Hge]; [|reflexivity].
  unfold descending in Hy. lia.
Qed.

Lemma StronglySorted_take (n : nat) (l : list A) :
  StronglySorted (descending key) l -> StronglySorted (descending key) (take n l).
Proof.
  intros Hl. revert n. induction Hl as [|x l Hl IH Hx]; intros [|n]; simpl;
    try constructor; [apply IH | apply Forall_take, Hx].
Qed.

(** C7: [top_n] returns the first [n] records of the stable descending sort
    on the count key, that is of the rearrangement of the records in
    descending order of the key in which records of equal key keep their
    input order; and it is idempotent, for 10 as for every [n]. *)
Theorem top_n_stable_and_idempotent (records : list A) (n : nat) :
  (exists sorted,
      top_n key records n = take n sorted /\
      sorted ≡ₚ records /\
      StronglySorted (descending key) sorted /\
      forall k, filter (fun y => key y = k) sorted =
                filter (fun y => key y = k) records) /\
  top_n key (top_n key records n) n = top_n key records n /\
  top_n key (top_n key records 10) 10 = top_n key records 10.
Proof.
  assert (Hidem : forall m,
             top_n key (top_n key records m) m = top_n key records m).
  { intros m. unfold top_n.
    rewrite (sorted_desc_fixed (take m (sorted_desc key records))).
    - rewrite take_take, Nat.min_id. reflexivity.
    - apply StronglySorted_take, sorted_desc_StronglySorted. }
  split; [|split; apply Hidem].
  exists (sorted_desc key records). split; [reflexivity|].
  split; [apply sorted_desc_Permutation|].
  split; [apply sorted_desc_StronglySorted | intros k; apply sorted_desc_stable].
Qed.

End SortedFacts.

(** ** The percentage of the HTML dashboard *)

Section PercentageClaims.

(** C6: with complaints at hand and no grade records (the list the fetcher
    returns when its request fails) [total_restaurants] is 0 and the header
    of [create_html_dashboard] divides by it; [analyze_311_complaints]
    guards the same quotient and yields 0 on a zero total. *)
Theorem html_dashboard_divides_by_zero_total :
  HTMLVisualizer.create_html_dashboard Scenario.complaints [] =
    Raise ZeroDivisionError /\
  RealDataAnalysis.analyze_311_complaints
    [Complaint.Make "Noise" (VStr "0")] = Ok (Some 0%Q).
Proof. split; vm_compute; reflexivity. Qed.

End PercentageClaims.

(** ** The table of [analyze_restaurant_grades] *)

Section RealDataFacts.

(** Unlike the chart loops, [analyze_restaurant_grades] keeps a row for
    every borough it meets and a cell for the grades it does not
    recognise: on the scenario of the specification Mars has a row. *)
Lemma analyze_restaurant_grades_keeps_unknown_boroughs :
  exists borough_data,
    RealDataAnalysis.borough_data Scenario.grades = Ok borough_data /\
    DataVisualizer.cell borough_data "Mars" "A" = Ok 5 /\
    borough_data !! "Brooklyn" = None.
Proof. eexists. repeat split; vm_compute; reflexivity. Qed.

(** The guarded quotient of [analyze_311_complaints] on the values the
    specification names: 3 of 12 is 25 percent. *)
Lemma analyze_311_complaints_quarter :
  exists q,
    RealDataAnalysis.analyze_311_complaints
      [Complaint.Make "Noise" (VStr "3"); Complaint.Make "Heat" (VStr "9")]
      = Ok (Some q) /\
    (q == 25)%Q.
Proof. eexists. split; [vm_compute; reflexivity | reflexivity]. Qed.

End RealDataFacts.

(** ** The guards on empty input and the sorted boroughs *)

Section ChartFacts.

Import DataVisualizer.

(** The four chart methods return at once on an empty record list. *)
Lemma charts_return_early_on_empty_input :
  create_complaint_categories_chart [] = Ok None /\
  create_restaurant_grades_chart [] = Ok None /\
  create_grade_distribution_pie [] = Ok None /\
  create_borough_comparison_chart [] = Ok None.
Proof. repeat split. Qed.

(** Past its guard the data of [create_complaint_categories_chart] is the
    result of the loop. *)
Lemma create_complaint_categories_chart_nonempty (complaints : list Complaint.t) :
  complaints <> [] ->
  create_complaint_categories_chart complaints =
    (d ← category_counts categories complaints; Ok (Some d)).
Proof. destruct complaints; [contradiction | reflexivity]. Qed.

Lemma totals_add_known (boro : string) (n : Z) (totals : list (string * Z)) :
  boro ∈ totals.*1 -> (totals_add boro n totals).*1 = totals.*1.
Proof.
  induction totals as [|[b v] totals IH]; [intros []%elem_of_nil|].
  rewrite fmap_cons. cbn [totals_add fst]. case_bool_decide as Hb.
  - reflexivity.
  - intros [->|Hin]%elem_of_cons; [destruct Hb; reflexivity|].
    rewrite fmap_cons, (IH Hin). reflexivity.
Qed.

Lemma totals_add_new (boro : string) (n : Z) (totals : list (string * Z)) :
  boro ∉ totals.*1 -> (totals_add boro n totals).*1 = (totals.*1 ++ [boro])%list.
Proof.
  induction totals as [|[b v] totals IH]; [reflexivity|].
  rewrite fmap_cons. cbn [totals_add fst]. intros Hout.
  rewrite bool_decide_false.
  - rewrite fmap_cons, IH; [reflexivity|].
    intros Hin. apply Hout, list_elem_of_further, Hin.
  - intros ->. apply Hout, list_elem_of_here.
Qed.

(** [borough_totals] stays a dictionary: no borough is entered twice. *)
Lemma totals_add_NoDup (boro : string) (n : Z) (totals : list (string * Z)) :
  NoDup (totals.*1) -> NoDup ((totals_add boro n totals).*1).
Proof.
  intros Hnd. destruct (decide (boro ∈ totals.*1)) as [Hin|Hout].
  - rewrite totals_add_known by exact Hin. exact Hnd.
  - rewrite totals_add_new by exact Hout.
    apply list.NoDup_app. split; [exact Hnd|]. split; [|apply NoDup_singleton].
    intros b Hb [->|[]%elem_of_nil]%elem_of_cons. exact (Hout Hb).
Qed.

(** The list [create_borough_comparison_chart] sorts for its plot is the
    borough totals in descending order, boroughs of equal total in the order
    they were met. *)
Lemma create_borough_comparison_chart_sorted (grades : list Grade.t)
    (sorted_boroughs : list (string * Z)) :
  create_borough_comparison_chart grades = Ok (Some sorted_boroughs) ->
  exists totals,
    borough_totals grades = Ok totals /\
    sorted_boroughs ≡ₚ totals /\
    StronglySorted (descending snd) sorted_boroughs /\
    forall k, filter (fun x => x.2 = k) sorted_boroughs =
              filter (fun x => x.2 = k) totals.
Proof.
  destruct grades as [|item grades]; [intros [=]|].
  unfold create_borough_comparison_chart.
  destruct (borough_totals (item :: grades)) as [totals|e]; [|intros [=]].
  intros [= <-]. exists totals. split; [reflexivity|].
  split; [apply sorted_desc_Permutation|].
  split; [apply sorted_desc_StronglySorted | intros k; apply sorted_desc_stable].
Qed.

End ChartFacts.

(** * Further properties of the scripts *)

(** ** The order of the records *)

Section OrderFacts.

Import DataVisualizer.

Lemma sum_Permutation (l1 l2 : list Z) : l1 ≡ₚ l2 -> sum l1 = sum l2.
Proof.
  induction 1 as [|x l1 l2 _ IH|x y l|l1 l2 l3 _ IH1 _ IH2].
  - reflexivity.
  - rewrite !sum_cons, IH. reflexivity.
  - rewrite !sum_cons. lia.
  - congruence.
Qed.

Lemma complaints_total_Permutation (P : Complaint.t -> Prop)
    `{!forall c, Decision (P c)} (l1 l2 : list Complaint.t) :
  l1 ≡ₚ l2 -> complaints_total P l1 = complaints_total P l2.
Proof.
  intros Hperm. unfold complaints_total. apply sum_Permutation.
  rewrite Hperm. reflexivity.
Qed.

Lemma grades_total_Permutation (P : Grade.t -> Prop)
    `{!forall g, Decision (P g)} (l1 l2 : list Grade.t) :
  l1 ≡ₚ l2 -> grades_total P l1 = grades_total P l2.
Proof.
  intros Hperm. unfold grades_total. apply sum_Permutation.
  rewrite Hperm. reflexivity.
Qed.

(** The category totals do not depend on the order of the complaints: with
    integer counts, any rearrangement of the list gives the same
    dictionary. *)
Theorem category_counts_Permutation
    (categories : list (string * list string))
    (complaints1 complaints2 : list Complaint.t) :
  "Other" ∈ categories.*1 ->
  Forall (fun c => numeric (Complaint.count c)) complaints1 ->
  complaints1 ≡ₚ complaints2 ->
  category_counts categories complaints1 =
    category_counts categories complaints2 /\
  exists d, category_counts categories complaints1 = Ok d.
Proof.
  intros Hother Hnum1 Hperm.
  assert (Hnum2 : Forall (fun c => numeric (Complaint.count c)) complaints2)
    by (rewrite <- Hperm; exact Hnum1).
  destruct (for_each_categorize categories Hother complaints1 Hnum1 _
              (keyed_zeros categories)) as (d1 & Hd1 & Hk1 & _ & Hc1).
  destruct (for_each_categorize categories Hother complaints2 Hnum2 _
              (keyed_zeros categories)) as (d2 & Hd2 & Hk2 & _ & Hc2).
  unfold category_counts. rewrite Hd1, Hd2. split; [|eauto].
  f_equal. apply map_eq. intros k.
  destruct (decide (k ∈ categories.*1)) as [Hk|Hk].
  - rewrite (Hc1 k 0 (lookup_zeros _ _ Hk)), (Hc2 k 0 (lookup_zeros _ _ Hk)).
    rewrite (complaints_total_Permutation _ _ _ Hperm). reflexivity.
  - destruct (d1 !! k) eqn:E1; [destruct Hk; apply Hk1; eauto|].
    destruct (d2 !! k) eqn:E2; [destruct Hk; apply Hk2; eauto|].
    reflexivity.
Qed.

Lemma category_counts_Permutation_witness :
  category_counts categories Scenario.complaints =
    category_counts categories (reverse Scenario.complaints) /\
  exists d, category_counts categories Scenario.complaints = Ok d.
Proof.
  apply (category_counts_Permutation categories).
  - simpl. repeat first [apply list_elem_of_here | apply list_elem_of_further].
  - repeat constructor.
  - symmetry. apply reverse_Permutation.
Defined.

(** Two framed tables with the same cells are one table. *)
Lemma framed_eq (boroughs recognized : list string)
    (t1 t2 : gmap string (gmap string Z)) :
  framed boroughs recognized t1 -> framed boroughs recognized t2 ->
  (forall b g, b ∈ boroughs -> g ∈ recognized -> cell t1 b g = cell t2 b g) ->
  t1 = t2.
Proof.
  intros [Hr1 Hk1] [Hr2 Hk2] Hcells. apply map_eq. intros b.
  destruct (decide (b ∈ boroughs)) as [Hb|Hb].
  - apply Hr1 in Hb as Hb1. apply Hr2 in Hb as Hb2.
    destruct Hb1 as [row1 E1], Hb2 as [row2 E2]. rewrite E1, E2. f_equal.
    apply map_eq. intros g.
    destruct (decide (g ∈ recognized)) as [Hg|Hg].
    + specialize (Hcells b g Hb Hg). unfold cell in Hcells.
      rewrite E1, E2 in Hcells.
      apply (Hk1 b row1 E1) in Hg as Hg1. apply (Hk2 b row2 E2) in Hg as Hg2.
      destruct Hg1 as [v1 F1], Hg2 as [v2 F2].
      rewrite F1, F2 in Hcells |- *. congruence.
    + destruct (row1 !! g) eqn:F1; [destruct Hg; apply (Hk1 b row1 E1); eauto|].
      destruct (row2 !! g) eqn:F2; [destruct Hg; apply (Hk2 b row2 E2); eauto|].
      reflexivity.
  - destruct (t1 !! b) eqn:E1; [destruct Hb; apply Hr1; eauto|].
    destruct (t2 !! b) eqn:E2; [destruct Hb; apply Hr2; eauto|].
    reflexivity.
Qed.

(** The borough-and-grade table does not depend on the order of the
    records either. *)
Theorem grade_counts_Permutation
    (boroughs recognized : list string) (grades1 grades2 : list Grade.t) :
  Forall (fun item => numeric (Grade.count item)) grades1 ->
  grades1 ≡ₚ grades2 ->
  grade_counts boroughs recognized grades1 =
    grade_counts boroughs recognized grades2 /\
  exists t, grade_counts boroughs recognized grades1 = Ok t.
Proof.
  intros Hnum1 Hperm.
  assert (Hnum2 : Forall (fun item => numeric (Grade.count item)) grades2)
    by (rewrite <- Hperm; exact Hnum1).
  pose proof (framed_zero_table boroughs recognized) as H0.
  destruct (for_each_tally boroughs recognized grades1 Hnum1 _ H0)
    as (t1 & Ht1 & Hc1).
  destruct (for_each_tally boroughs recognized grades2 Hnum2 _ H0)
    as (t2 & Ht2 & Hc2).
  pose proof (for_each_tally_framed boroughs recognized grades1 _ _ H0 Ht1) as Hf1.
  pose proof (for_each_tally_framed boroughs recognized grades2 _ _ H0 Ht2) as Hf2.
  unfold grade_counts. rewrite Ht1, Ht2. split; [|eauto].
  f_equal. apply (framed_eq boroughs recognized _ _ Hf1 Hf2).
  intros b g Hb Hg.
  rewrite (Hc1 b g 0 (cell_zero_table boroughs recognized b g Hb Hg)).
  rewrite (Hc2 b g 0 (cell_zero_table boroughs recognized b g Hb Hg)).
  rewrite (grades_total_Permutation _ _ _ Hperm). reflexivity.
Qed.

Lemma grade_counts_Permutation_witness :
  grade_counts boroughs abc Scenario.grades =
    grade_counts boroughs abc (reverse Scenario.grades) /\
  exists t, grade_counts boroughs abc Scenario.grades = Ok t.
Proof.
  apply (grade_counts_Permutation boroughs abc).
  - repeat constructor.
  - symmetry. apply reverse_Permutation.
Defined.

End OrderFacts.

(** ** The totals per borough *)

Section BoroughTotalsFacts.

Import DataVisualizer.

Local Abbreviation as_map totals := (list_to_map totals : gmap string Z).

(** Read as a dictionary, [totals_add] is one update of one key. *)
Lemma totals_add_as_map (boro : string) (n : Z) (totals : list (string * Z)) :
  as_map (totals_add boro n totals) =
    <[boro := default 0 (as_map totals !! boro) + n]> (as_map totals).
Proof.
  induction totals as [|[b v] totals IH]; [reflexivity|].
  cbn [totals_add]. case_bool_decide as Hb.
  - subst b. rewrite !list_to_map_cons, lookup_insert_eq, insert_insert_eq.
    reflexivity.
  - rewrite !list_to_map_cons, IH, lookup_insert_ne by exact Hb.
    apply insert_insert_ne. congruence.
Qed.

Lemma totals_add_sum (boro : string) (n : Z) (totals : list (string * Z)) :
  sum ((totals_add boro n totals).*2) = sum (totals.*2) + n.
Proof.
  induction totals as [|[b v] totals IH]; [reflexivity|].
  cbn [totals_add]. case_bool_decide.
  - rewrite !fmap_cons, !sum_cons. simpl. lia.
  - rewrite !fmap_cons, !sum_cons, IH. simpl. lia.
Qed.

(** The body of the loop of [create_borough_comparison_chart]. *)
Local Abbreviation add_item :=
  (fun (borough_totals : list (string * Z)) (item : Grade.t) =>
     count ← int (Grade.count item);
     Ok (totals_add (Grade.boro item) count borough_totals)).

Lemma for_each_add_item (grades : list Grade.t) :
  Forall (fun item => numeric (Grade.count item)) grades ->
  forall totals, NoDup (totals.*1) ->
  exists totals',
    for_each add_item totals grades = Ok totals' /\
    NoDup (totals'.*1) /\
    sum (totals'.*2) =
      sum (totals.*2) + sum ((fun g => int_value (Grade.count g)) <$> grades) /\
    forall b,
      as_map totals' !! b =
        match as_map totals !! b with
        | Some v => Some (v + grades_total (fun g => Grade.boro g = b) grades)
        | None =>
            if decide (b ∈ Grade.boro <$> grades)
            then Some (grades_total (fun g => Grade.boro g = b) grades)
            else None
        end.
Proof.
  induction 1 as [|item grades Hnum _ IH]; intros totals Hnd.
  - exists totals. split; [reflexivity|]. split; [exact Hnd|]. split.
    + rewrite fmap_nil, sum_nil. lia.
    + intros b. destruct (as_map totals !! b) as [v|]; [|reflexivity].
      unfold grades_total. rewrite filter_nil, fmap_nil, sum_nil. f_equal; lia.
  - set (n := int_value (Grade.count item)).
    assert (Hstep : add_item totals item =
                      Ok (totals_add (Grade.boro item) n totals)).
    { rewrite (numeric_int _ Hnum). reflexivity. }
    destruct (IH _ (totals_add_NoDup (Grade.boro item) n totals Hnd))
      as (totals' & Hloop & Hnd' & Hsum & Hmap).
    exists totals'. rewrite (for_each_cons_ok _ _ _ _ _ Hstep).
    split; [exact Hloop|]. split; [exact Hnd'|]. split.
    + rewrite Hsum, totals_add_sum, fmap_cons, sum_cons. fold n. lia.
    + intros b. rewrite Hmap, totals_add_as_map, grades_total_cons, fmap_cons.
      fold n. destruct (decide (Grade.boro item = b)) as [<-|Hb].
      * rewrite lookup_insert_eq.
        destruct (as_map totals !! Grade.boro item) as [v|]; simpl.
        -- f_equal; lia.
        -- rewrite decide_True by apply list_elem_of_here. f_equal; lia.
      * rewrite lookup_insert_ne by exact Hb.
        destruct (as_map totals !! b) as [v|]; [reflexivity|].
        destruct (decide (b ∈ Grade.boro <$> grades)) as [Hin|Hout].
        -- rewrite decide_True by (apply list_elem_of_further, Hin). reflexivity.
        -- rewrite decide_False; [reflexivity|].
           intros [->|Hin]%elem_of_cons; [destruct Hb; reflexivity | tauto].
Qed.

(** [borough_totals] has one entry for every borough that occurs in the
    records and no other, none twice, and the entry of a borough is the sum
    of the counts of its records, whatever their grades. *)
Theorem borough_totals_per_borough (grades : list Grade.t) :
  Forall (fun item => numeric (Grade.count item)) grades ->
  exists totals,
    borough_totals grades = Ok totals /\
    NoDup (totals.*1) /\
    (forall b, b ∈ totals.*1 <-> b ∈ Grade.boro <$> grades) /\
    (forall b v, (b, v) ∈ totals ->
       v = grades_total (fun g => Grade.boro g = b) grades).
Proof.
  intros Hnum.
  destruct (for_each_add_item grades Hnum [] (NoDup_nil_2))
    as (totals & Hloop & Hnd & _ & Hmap).
  exists totals. split; [exact Hloop|]. split; [exact Hnd|]. split.
  - intros b. specialize (Hmap b). simpl in Hmap. rewrite lookup_empty in Hmap.
    destruct (decide (b ∈ Grade.boro <$> grades)) as [Hin|Hout].
    + split; [intros _; exact Hin|]. intros _.
      destruct (decide (b ∈ totals.*1)) as [|Hno]; [assumption|].
      apply not_elem_of_list_to_map_1 in Hno.
      change (as_map totals !! b = None) in Hno. congruence.
    + split; [|intros Hin; destruct (Hout Hin)]. intros Hb.
      apply list_elem_of_fmap in Hb as ([b' v] & -> & Hbv).
      apply (elem_of_list_to_map_1 _ _ _ Hnd) in Hbv.
      change (as_map totals !! b' = Some v) in Hbv. simpl in Hmap. congruence.
  - intros b v Hbv. apply (elem_of_list_to_map_1 _ _ _ Hnd) in Hbv.
    change (as_map totals !! b = Some v) in Hbv.
    specialize (Hmap b). simpl in Hmap. rewrite lookup_empty, Hbv in Hmap.
    case_decide; congruence.
Qed.

Lemma borough_totals_per_borough_witness :
  exists totals,
    borough_totals Scenario.grades = Ok totals /\
    NoDup (totals.*1) /\
    (forall b, b ∈ totals.*1 <-> b ∈ Grade.boro <$> Scenario.grades) /\
    (forall b v, (b, v) ∈ totals ->
       v = grades_total (fun g => Grade.boro g = b) Scenario.grades).
Proof.
  apply (borough_totals_per_borough Scenario.grades). repeat constructor.
Defined.

(** No record is left out of [borough_totals]: its entries add up to the
    sum of all counts, also those of boroughs and grades the stacked bars
    skip. *)
Theorem borough_totals_keep_every_count (grades : list Grade.t) :
  Forall (fun item => numeric (Grade.count item)) grades ->
  exists totals,
    borough_totals grades = Ok totals /\
    sum (totals.*2) = sum ((fun g => int_value (Grade.count g)) <$> grades).
Proof.
  intros Hnum.
  destruct (for_each_add_item grades Hnum [] (NoDup_nil_2))
    as (totals & Hloop & _ & Hsum & _).
  exists totals. split; [exact Hloop|]. rewrite Hsum. reflexivity.
Qed.

Lemma borough_totals_keep_every_count_witness :
  exists totals,
    borough_totals Scenario.grades = Ok totals /\
    sum (totals.*2) = 15.
Proof.
  apply (borough_totals_keep_every_count Scenario.grades). repeat constructor.
Defined.

(** On a non-empty list with integer counts
    [create_borough_comparison_chart] computes, as the list it goes on to
    plot (line 263), the borough totals rearranged in descending order,
    boroughs of equal total in the order they have in [borough_totals]. *)
Theorem create_borough_comparison_chart_descending (grades : list Grade.t) :
  grades <> [] ->
  Forall (fun item => numeric (Grade.count item)) grades ->
  exists totals sorted_boroughs,
    borough_totals grades = Ok totals /\
    create_borough_comparison_chart grades = Ok (Some sorted_boroughs) /\
    sorted_boroughs ≡ₚ totals /\
    StronglySorted (descending snd) sorted_boroughs /\
    forall k, filter (fun x => x.2 = k) sorted_boroughs =
              filter (fun x => x.2 = k) totals.
Proof.
  intros Hne Hnum.
  destruct (for_each_add_item grades Hnum [] (NoDup_nil_2))
    as (totals & Hloop & _).
  change (borough_totals grades = Ok totals) in Hloop.
  exists totals, (sorted_desc snd totals). split; [exact Hloop|]. split.
  - destruct grades; [contradiction|].
    unfold create_borough_comparison_chart. rewrite Hloop. reflexivity.
  - split; [apply sorted_desc_Permutation|].
    split; [apply sorted_desc_StronglySorted | intros k; apply sorted_desc_stable].
Qed.

Lemma create_borough_comparison_chart_descending_witness :
  exists totals sorted_boroughs,
    borough_totals Scenario.grades = Ok totals /\
    create_borough_comparison_chart Scenario.grades = Ok (Some sorted_boroughs) /\
    sorted_boroughs ≡ₚ totals /\
    StronglySorted (descending snd) sorted_boroughs /\
    forall k, filter (fun x => x.2 = k) sorted_boroughs =
              filter (fun x => x.2 = k) totals.
Proof.
  apply (create_borough_comparison_chart_descending Scenario.grades).
  - discriminate.
  - repeat constructor.
Defined.

End BoroughTotalsFacts.

(** ** Quotients within the range of a float *)

Section DivisionFacts.

Lemma overflows_false (x y c : Z) :
  0 <= c <= float_bound -> Z.abs x < c * Z.abs y -> overflows x y = false.
Proof.
  intros [Hc0 Hc] Hx. unfold overflows. apply Z.leb_gt.
  pose proof (Z.abs_nonneg y) as Hy.
  pose proof (Z.mul_le_mono_nonneg_r c float_bound (Z.abs y) Hy Hc). lia.
Qed.

Lemma two_le_float_bound : 0 <= 2 <= float_bound.
Proof. split; [lia | apply Z.leb_le; vm_compute; reflexivity]. Qed.

Lemma float_bound_pos : 0 <= float_bound <= float_bound.
Proof. split; [apply Z.leb_le; vm_compute; reflexivity | lia]. Qed.

(** A quotient of magnitude at most 1 is returned. *)
Lemma true_div_within (x y : Z) :
  y <> 0 -> Z.abs x <= Z.abs y ->
  HTMLVisualizer.true_div x y = Ok (inject_Z x / inject_Z y)%Q.
Proof.
  intros Hy Hxy. unfold HTMLVisualizer.true_div.
  apply Z.eqb_neq in Hy as Hy'. rewrite Hy'.
  rewrite (overflows_false x y 2 two_le_float_bound); [reflexivity | lia].
Qed.

(** A dividend that fits a float, over a non-zero divisor, is returned. *)
Lemma true_div_fits (x y : Z) :
  y <> 0 -> overflows x 1 = false ->
  HTMLVisualizer.true_div x y = Ok (inject_Z x / inject_Z y)%Q.
Proof.
  intros Hy Hx. unfold HTMLVisualizer.true_div.
  apply Z.eqb_neq in Hy as Hy'. rewrite Hy'.
  rewrite (overflows_false x y float_bound float_bound_pos); [reflexivity|].
  unfold overflows in Hx. apply Z.leb_gt in Hx.
  pose proof float_bound_pos as [Hb _].
  assert (1 <= Z.abs y) by lia.
  pose proof (Z.mul_le_mono_nonneg_l 1 (Z.abs y) float_bound Hb). lia.
Qed.

(** *** Integers short enough to be written *)

Lemma float_bound_le_str_bound : float_bound <= str_bound.
Proof. apply Z.leb_le. vm_compute. reflexivity. Qed.

Lemma format_int_ok (n : Z) : Z.abs n < str_bound -> format_int n = Ok tt.
Proof.
  intros Hn. unfold format_int.
  destruct (Z.leb_spec str_bound (Z.abs n)); [lia | reflexivity].
Qed.

Lemma format_int_within (n b : Z) :
  0 <= n <= b -> b < str_bound -> format_int n = Ok tt.
Proof. intros Hn Hb. apply format_int_ok. lia. Qed.

(** An integer that fits a float is short enough to be written. *)
Lemma format_int_fits (n : Z) : overflows n 1 = false -> format_int n = Ok tt.
Proof.
  intros Hn. apply format_int_ok. unfold overflows in Hn.
  apply Z.leb_gt in Hn. pose proof float_bound_le_str_bound. lia.
Qed.

(** A string is padded as it is; an integer count within a total that can
    be written can be written. *)
Lemma format_value_within (v : value) (b : Z) :
  numeric v -> 0 <= int_value v <= b -> b < str_bound ->
  format_value v = Ok tt.
Proof.
  destruct v as [s|n]; [reflexivity|]. intros _ Hn Hb.
  apply (format_int_within n b); assumption.
Qed.

Lemma elem_of_sum_bounds (l : list Z) (x : Z) :
  Forall (fun y => 0 <= y) l -> x ∈ l -> 0 <= x <= sum l.
Proof.
  induction 1 as [|y l Hy Hl IH]; [intros []%elem_of_nil|].
  rewrite sum_cons. pose proof (sum_nonneg l Hl).
  intros [->|Hin]%elem_of_cons; [lia|]. specialize (IH Hin). lia.
Qed.

End DivisionFacts.

(** ** The figures of the charts and of the HTML dashboard *)

Section DashboardFacts.

Import DataVisualizer.

Local Ltac by_decide :=
  match goal with
  | |- ?P => apply (bool_decide_unpack P); vm_compute; exact I
  end.

(** The records of one borough and one grade, and those of one grade in the
    five boroughs. *)
Local Abbreviation in_cell b g :=
  (fun item : Grade.t => Grade.boro item = b /\ upper (Grade.grade item) = g).
Local Abbreviation in_column g :=
  (fun item : Grade.t =>
     Grade.boro item ∈ boroughs /\ upper (Grade.grade item) = g).

Lemma map_each_raise {A} (f : A -> value) (l : list A) :
  Exists (fun x => ¬ numeric (f x)) l ->
  map_each (fun x => int (f x)) l = Raise ValueError.
Proof.
  induction 1 as [x l Hx|x l _ IH]; simpl.
  - rewrite (not_numeric_int _ Hx). reflexivity.
  - destruct (decide (numeric (f x))) as [Hn|Hn].
    + rewrite (numeric_int _ Hn), bind_Ok, IH. reflexivity.
    + rewrite (not_numeric_int _ Hn). reflexivity.
Qed.

Lemma for_each_tally_raise (bs recognized : list string) (grades : list Grade.t) :
  Exists (fun item => ¬ numeric (Grade.count item)) grades ->
  forall t, framed bs recognized t ->
  for_each (tally recognized) t grades = Raise ValueError.
Proof.
  induction 1 as [item grades Hbad|item grades _ IH]; intros t Ht.
  - apply for_each_cons_raise, tally_raise, Hbad.
  - destruct (decide (numeric (Grade.count item))) as [Hn|Hn];
      [|apply for_each_cons_raise, tally_raise, Hn].
    destruct (tally recognized t item) as [t1|e] eqn:Hstep.
    + rewrite (for_each_cons_ok _ _ _ _ _ Hstep).
      apply IH. exact (tally_framed bs recognized t t1 item Ht Hstep).
    + pose proof (tally_ok bs recognized t item Ht Hn) as Hok.
      case_decide; [destruct Hok as (? & ? & _ & _ & Hok)|]; congruence.
Qed.

(** The table of the loop, cell by cell. *)
Lemma grade_counts_cells (bs recognized : list string) (grades : list Grade.t) :
  Forall (fun item => numeric (Grade.count item)) grades ->
  exists t,
    grade_counts bs recognized grades = Ok t /\
    framed bs recognized t /\
    forall b g, b ∈ bs -> g ∈ recognized ->
      cell t b g = Ok (grades_total (in_cell b g) grades).
Proof.
  intros Hnum. pose proof (framed_zero_table bs recognized) as H0.
  destruct (for_each_tally bs recognized grades Hnum _ H0) as (t & Hloop & Hcell).
  exists t. split; [exact Hloop|]. split.
  - exact (for_each_tally_framed bs recognized grades _ _ H0 Hloop).
  - intros b g Hb Hg.
    rewrite (Hcell b g 0 (cell_zero_table bs recognized b g Hb Hg)). reflexivity.
Qed.

Lemma elem_of_abc (g : string) : g ∈ abc <-> g = "A" \/ g = "B" \/ g = "C".
Proof. unfold abc. rewrite !elem_of_cons, elem_of_nil. tauto. Qed.

(** The matched records are those of the three columns. *)
Lemma grades_total_matched (grades : list Grade.t) :
  grades_total matched grades =
    grades_total (in_column "A") grades +
    grades_total (in_column "B") grades +
    grades_total (in_column "C") grades.
Proof.
  induction grades as [|item grades IH]; [reflexivity|].
  rewrite !grades_total_cons, IH. unfold matched.
  repeat case_decide; rewrite ?elem_of_abc in *; try lia;
    exfalso; intuition congruence.
Qed.

(** A row with the keys A, B, C sums to its three cells. *)
Lemma sum_values_abc (row : gmap string Z) :
  (forall k, is_Some (row !! k) <-> k ∈ abc) ->
  exists a b c,
    row !! "A" = Some a /\ row !! "B" = Some b /\ row !! "C" = Some c /\
    sum_values row = a + b + c.
Proof.
  intros Hkeys.
  destruct (proj2 (Hkeys "A")) as [a Ha]; [by_decide|].
  destruct (proj2 (Hkeys "B")) as [b Hb]; [by_decide|].
  destruct (proj2 (Hkeys "C")) as [c Hc]; [by_decide|].
  exists a, b, c. split; [exact Ha|]. split; [exact Hb|]. split; [exact Hc|].
  assert (Hrow : row = <["A" := a]> (<["B" := b]> (<["C" := c]> ∅))).
  { apply map_eq. intros k.
    destruct (decide (k = "A")) as [->|HA]; [rewrite lookup_insert_eq; exact Ha|].
    rewrite lookup_insert_ne by congruence.
    destruct (decide (k = "B")) as [->|HB]; [rewrite lookup_insert_eq; exact Hb|].
    rewrite lookup_insert_ne by congruence.
    destruct (decide (k = "C")) as [->|HC]; [rewrite lookup_insert_eq; exact Hc|].
    rewrite lookup_insert_ne by congruence. rewrite lookup_empty.
    destruct (row !! k) eqn:Hk; [|reflexivity].
    assert (Hin : k ∈ abc) by (apply Hkeys; eauto).
    apply elem_of_abc in Hin. intuition congruence. }
  rewrite Hrow.
  rewrite !sum_values_insert_fresh, sum_values_empty; [lia|..].
  - apply lookup_empty.
  - rewrite lookup_insert_ne by discriminate. apply lookup_empty.
  - rewrite !lookup_insert_ne by discriminate. apply lookup_empty.
Qed.

Lemma zip_sum_fmap {A} (f g h : A -> Z) (l : list A) :
  zip_sum (f <$> l) (g <$> l) (h <$> l) = (fun x => f x + g x + h x) <$> l.
Proof.
  induction l as [|x l IH]; [reflexivity|].
  rewrite !fmap_cons. cbn [zip_sum]. rewrite IH. reflexivity.
Qed.

(** [sum(grade_data[b].values()) for b in boroughs] on the table of the
    loop. *)
Lemma html_borough_totals_ok (grades : list Grade.t)
    (t : gmap string (gmap string Z)) :
  Forall (fun item => numeric (Grade.count item)) grades ->
  grade_counts boroughs abc grades = Ok t ->
  HTMLVisualizer.borough_totals t =
    Ok ((fun b => grades_total (in_cell b "A") grades +
                  grades_total (in_cell b "B") grades +
                  grades_total (in_cell b "C") grades) <$> boroughs).
Proof.
  intros Hnum Ht.
  destruct (grade_counts_cells boroughs abc grades Hnum) as (t' & Ht' & Hf & Hcell).
  assert (t' = t) as -> by congruence.
  unfold HTMLVisualizer.borough_totals. apply map_each_ok, Forall_forall.
  intros b Hb%list_elem_of_In.
  destruct Hf as [Hrows Hkeys].
  apply Hrows in Hb as Hrow. destruct Hrow as [row Hrow]. rewrite Hrow.
  destruct (sum_values_abc row (Hkeys b row Hrow)) as (x & y & z & Hx & Hy & Hz & ->).
  assert (Hc : forall g v, g ∈ abc -> row !! g = Some v ->
                 v = grades_total (in_cell b g) grades).
  { intros g v Hg Hv. specialize (Hcell b g Hb Hg).
    apply cell_ok in Hcell as (row' & Hrow' & Hv'). congruence. }
  rewrite (Hc "A" x), (Hc "B" y), (Hc "C" z); try assumption; try by_decide.
  reflexivity.
Qed.

Lemma sum_borough_totals (grades : list Grade.t) :
  sum ((fun b => grades_total (in_cell b "A") grades +
                 grades_total (in_cell b "B") grades +
                 grades_total (in_cell b "C") grades) <$> boroughs) =
    grades_total matched grades.
Proof.
  assert (Hbs : NoDup boroughs) by by_decide.
  rewrite (sum_fmap_add
             (fun b => grades_total (in_cell b "A") grades +
                       grades_total (in_cell b "B") grades)
             (fun b => grades_total (in_cell b "C") grades)).
  rewrite (sum_fmap_add
             (fun b => grades_total (in_cell b "A") grades)
             (fun b => grades_total (in_cell b "B") grades)).
  rewrite !(sum_column boroughs _ grades Hbs), grades_total_matched.
  reflexivity.
Qed.

(** [create_html_dashboard] evaluated up to its one division. *)
Lemma create_html_dashboard_eval (complaints : list Complaint.t)
    (grades : list Grade.t) :
  Forall (fun c => numeric (Complaint.count c)) complaints ->
  Forall (fun item => numeric (Grade.count item)) grades ->
  Z.abs (sum ((fun c => int_value (Complaint.count c)) <$> complaints))
    < str_bound ->
  Z.abs (grades_total matched grades) < str_bound ->
  exists t d,
    grade_counts boroughs abc grades = Ok t /\
    category_counts categories complaints = Ok d /\
    sum_values d = sum ((fun c => int_value (Complaint.count c)) <$> complaints) /\
    HTMLVisualizer.create_html_dashboard complaints grades =
      (q ← HTMLVisualizer.true_div
             (grades_total (in_column "A") grades)
             (grades_total matched grades);
       Ok (HTMLVisualizer.Dashboard
             (sum ((fun c => int_value (Complaint.count c)) <$> complaints))
             t
             (grades_total (in_column "A") grades)
             (grades_total (in_column "B") grades)
             (grades_total (in_column "C") grades)
             (grades_total matched grades)
             d (q * 100)%Q)).
Proof.
  intros Hc Hg Hcfit Hgfit.
  assert (Hbs : NoDup boroughs) by by_decide.
  assert (Hother : "Other" ∈ categories.*1) by by_decide.
  destruct (grade_counts_cells boroughs abc grades Hg) as (t & Ht & _ & _).
  destruct (for_each_categorize categories Hother complaints Hc _
              (keyed_zeros categories)) as (d & Hd & _ & Hsum & _).
  change (category_counts categories complaints = Ok d) in Hd.
  rewrite sum_values_zeros, Z.add_0_l in Hsum.
  exists t, d. split; [exact Ht|]. split; [exact Hd|]. split; [exact Hsum|].
  unfold HTMLVisualizer.create_html_dashboard.
  rewrite (map_each_numeric Complaint.count complaints Hc), bind_Ok.
  cbv zeta. rewrite Ht, bind_Ok.
  rewrite (column_ok boroughs abc "A" grades t), bind_Ok;
    [|by_decide|exact Hg|exact Ht].
  rewrite (column_ok boroughs abc "B" grades t), bind_Ok;
    [|by_decide|exact Hg|exact Ht].
  rewrite (column_ok boroughs abc "C" grades t), bind_Ok;
    [|by_decide|exact Hg|exact Ht].
  rewrite Hd, bind_Ok, !(sum_column boroughs _ grades Hbs).
  rewrite <- grades_total_matched.
  rewrite (format_int_ok _ Hcfit), bind_Ok, (format_int_ok _ Hgfit), bind_Ok.
  reflexivity.
Qed.

Lemma in_column_bounds (grades : list Grade.t) :
  Forall (fun item => 0 <= int_value (Grade.count item)) grades ->
  0 <= grades_total (in_column "A") grades <= grades_total matched grades.
Proof.
  intros Hpos. rewrite grades_total_matched.
  pose proof (grades_total_nonneg (in_column "A") grades Hpos).
  pose proof (grades_total_nonneg (in_column "B") grades Hpos).
  pose proof (grades_total_nonneg (in_column "C") grades Hpos).
  lia.
Qed.

(** Let the counts be integers, those of the grade records not negative,
    and the two totals of the header short enough to be written.  Then
    [create_html_dashboard] fails with [ZeroDivisionError], by the division
    in the header of its page, when the counts of the records of the five
    boroughs with grade A, B or C add up to zero, and gets through the
    header (line 214) when they do not. *)
Theorem html_dashboard_fails_exactly_on_zero_total
    (complaints : list Complaint.t) (grades : list Grade.t) :
  Forall (fun c => numeric (Complaint.count c)) complaints ->
  Forall (fun item => numeric (Grade.count item)) grades ->
  Forall (fun item => 0 <= int_value (Grade.count item)) grades ->
  Z.abs (sum ((fun c => int_value (Complaint.count c)) <$> complaints))
    < str_bound ->
  grades_total matched grades < str_bound ->
  (grades_total matched grades = 0 ->
   HTMLVisualizer.create_html_dashboard complaints grades =
     Raise ZeroDivisionError) /\
  (grades_total matched grades <> 0 ->
   exists d, HTMLVisualizer.create_html_dashboard complaints grades = Ok d).
Proof.
  intros Hc Hg Hpos Hcfit Hgfit.
  pose proof (in_column_bounds grades Hpos) as Hcol.
  destruct (create_html_dashboard_eval complaints grades Hc Hg Hcfit)
    as (t & d & _ & _ & _ & ->); [lia|].
  split; intros Hz.
  - unfold HTMLVisualizer.true_div. rewrite Hz. reflexivity.
  - rewrite true_div_within by lia. eexists. reflexivity.
Qed.

Lemma html_dashboard_fails_exactly_on_zero_total_witness :
  (grades_total matched Scenario.grades = 0 ->
   HTMLVisualizer.create_html_dashboard Scenario.complaints Scenario.grades =
     Raise ZeroDivisionError) /\
  (grades_total matched Scenario.grades <> 0 ->
   exists d,
     HTMLVisualizer.create_html_dashboard Scenario.complaints Scenario.grades =
       Ok d).
Proof.
  apply (html_dashboard_fails_exactly_on_zero_total
           Scenario.complaints Scenario.grades).
  - repeat constructor.
  - repeat constructor.
  - repeat constructor; vm_compute; discriminate.
  - vm_compute. reflexivity.
  - vm_compute. reflexivity.
Defined.

(** Under the same conditions and with a total of restaurants that is not
    zero, the figures [create_html_dashboard] has computed when it is
    through the header of its page agree with one another: the header total
    of complaints is the sum of the category bars, the number of restaurants
    is the total count of the matched records and the sum of the bars per
    borough. *)
Theorem html_dashboard_figures_agree
    (complaints : list Complaint.t) (grades : list Grade.t) :
  Forall (fun c => numeric (Complaint.count c)) complaints ->
  Forall (fun item => numeric (Grade.count item)) grades ->
  Forall (fun item => 0 <= int_value (Grade.count item)) grades ->
  Z.abs (sum ((fun c => int_value (Complaint.count c)) <$> complaints))
    < str_bound ->
  grades_total matched grades < str_bound ->
  grades_total matched grades <> 0 ->
  exists d borough_totals,
    HTMLVisualizer.create_html_dashboard complaints grades = Ok d /\
    HTMLVisualizer.total_complaints d =
      sum_values (HTMLVisualizer.category_counts d) /\
    HTMLVisualizer.total_restaurants d = grades_total matched grades /\
    HTMLVisualizer.total_restaurants d =
      HTMLVisualizer.total_a d + HTMLVisualizer.total_b d +
      HTMLVisualizer.total_c d /\
    HTMLVisualizer.borough_totals (HTMLVisualizer.grade_data d) =
      Ok borough_totals /\
    sum borough_totals = HTMLVisualizer.total_restaurants d.
Proof.
  intros Hc Hg Hpos Hcfit Hgfit Hz.
  pose proof (in_column_bounds grades Hpos).
  destruct (create_html_dashboard_eval complaints grades Hc Hg Hcfit)
    as (t & d & Ht & _ & Hsum & Heval); [lia|].
  rewrite true_div_within, bind_Ok in Heval by lia.
  eexists. eexists. split; [exact Heval|]. simpl.
  split; [symmetry; exact Hsum|]. split; [reflexivity|].
  split; [apply grades_total_matched|].
  split; [exact (html_borough_totals_ok grades t Hg Ht)|].
  apply sum_borough_totals.
Qed.

Lemma html_dashboard_figures_agree_witness :
  exists d borough_totals,
    HTMLVisualizer.create_html_dashboard Scenario.complaints Scenario.grades =
      Ok d /\
    HTMLVisualizer.total_complaints d =
      sum_values (HTMLVisualizer.category_counts d) /\
    HTMLVisualizer.total_restaurants d =
      grades_total matched Scenario.grades /\
    HTMLVisualizer.total_restaurants d =
      HTMLVisualizer.total_a d + HTMLVisualizer.total_b d +
      HTMLVisualizer.total_c d /\
    HTMLVisualizer.borough_totals (HTMLVisualizer.grade_data d) =
      Ok borough_totals /\
    sum borough_totals = HTMLVisualizer.total_restaurants d.
Proof.
  apply (html_dashboard_figures_agree Scenario.complaints Scenario.grades).
  - repeat constructor.
  - repeat constructor.
  - repeat constructor; vm_compute; discriminate.
  - vm_compute. reflexivity.
  - vm_compute. reflexivity.
  - vm_compute. discriminate.
Defined.

End DashboardFacts.

(** ** The chart methods of [DataVisualizer] *)

Section ChartMethodFacts.

Import DataVisualizer.

Local Ltac by_decide :=
  match goal with
  | |- ?P => apply (bool_decide_unpack P); vm_compute; exact I
  end.

Local Abbreviation in_cell b g :=
  (fun item : Grade.t => Grade.boro item = b /\ upper (Grade.grade item) = g).

Local Abbreviation count_of := (fun c => int_value (Complaint.count c)).

Lemma create_311_complaints_chart_eval (complaints : list Complaint.t) :
  complaints <> [] ->
  Forall (fun c => numeric (Complaint.count c)) complaints ->
  create_311_complaints_chart complaints =
    Ok (Some (ComplaintsChart (Complaint.complaint_type <$> complaints)
                (count_of <$> complaints))).
Proof.
  intros Hne Hnum. destruct complaints as [|c complaints]; [contradiction|].
  unfold create_311_complaints_chart.
  rewrite (map_each_numeric Complaint.count _ Hnum). reflexivity.
Qed.

Lemma category_counts_ok (complaints : list Complaint.t) :
  Forall (fun c => numeric (Complaint.count c)) complaints ->
  exists d,
    category_counts categories complaints = Ok d /\
    sum_values d = sum (count_of <$> complaints).
Proof.
  intros Hnum.
  assert (Hother : "Other" ∈ categories.*1) by by_decide.
  destruct (for_each_categorize categories Hother complaints Hnum _
              (keyed_zeros categories)) as (d & Hd & _ & Hsum & _).
  exists d. split; [exact Hd|]. rewrite Hsum, sum_values_zeros. lia.
Qed.

(** The counts that [create_311_complaints_chart] hands to its bars, whose
    sum is the total written on that chart, add up to the sum of the bars of
    the chart of complaint categories: no complaint is lost between the two
    charts. *)
Theorem complaints_chart_total_is_sum_of_category_bars
    (complaints : list Complaint.t) :
  complaints <> [] ->
  Forall (fun c => numeric (Complaint.count c)) complaints ->
  exists chart d,
    create_311_complaints_chart complaints = Ok (Some chart) /\
    create_complaint_categories_chart complaints = Ok (Some d) /\
    sum (counts chart) = sum_values d /\
    length (types chart) = length complaints /\
    length (counts chart) = length complaints.
Proof.
  intros Hne Hnum.
  destruct (category_counts_ok complaints Hnum) as (d & Hd & Hsum).
  eexists. exists d.
  split; [apply (create_311_complaints_chart_eval complaints Hne Hnum)|].
  split.
  - rewrite (create_complaint_categories_chart_nonempty complaints Hne), Hd.
    reflexivity.
  - simpl. rewrite !length_fmap. auto.
Qed.

Lemma complaints_chart_total_is_sum_of_category_bars_witness :
  exists chart d,
    create_311_complaints_chart Scenario.complaints = Ok (Some chart) /\
    create_complaint_categories_chart Scenario.complaints = Ok (Some d) /\
    sum (counts chart) = sum_values d /\
    length (types chart) = length Scenario.complaints /\
    length (counts chart) = length Scenario.complaints.
Proof.
  apply (complaints_chart_total_is_sum_of_category_bars Scenario.complaints).
  - discriminate.
  - repeat constructor.
Defined.

Lemma create_restaurant_grades_chart_eval (grades : list Grade.t) :
  grades <> [] ->
  Forall (fun item => numeric (Grade.count item)) grades ->
  exists t,
    grade_counts boroughs abc grades = Ok t /\
    create_restaurant_grades_chart grades =
      Ok (Some (GradesChart
                  ((fun b => grades_total (in_cell b "A") grades) <$> boroughs)
                  ((fun b => grades_total (in_cell b "B") grades) <$> boroughs)
                  ((fun b => grades_total (in_cell b "C") grades) <$> boroughs))).
Proof.
  intros Hne Hnum.
  destruct (grade_counts_cells boroughs abc grades Hnum) as (t & Ht & _ & _).
  exists t. split; [exact Ht|].
  rewrite (create_restaurant_grades_chart_nonempty grades Hne), Ht, bind_Ok.
  rewrite (column_ok boroughs abc "A" grades t), bind_Ok;
    [|by_decide|exact Hnum|exact Ht].
  rewrite (column_ok boroughs abc "B" grades t), bind_Ok;
    [|by_decide|exact Hnum|exact Ht].
  rewrite (column_ok boroughs abc "C" grades t), bind_Ok;
    [|by_decide|exact Hnum|exact Ht].
  reflexivity.
Qed.

(** The list of totals of line 130, computed from the three columns of the
    stacked bars, has one entry per borough, is the list of per-borough sums
    the HTML dashboard computes from the same table, and adds up to the
    total count of the matched records. *)
Theorem stacked_bar_totals (grades : list Grade.t) :
  grades <> [] ->
  Forall (fun item => numeric (Grade.count item)) grades ->
  exists chart t,
    create_restaurant_grades_chart grades = Ok (Some chart) /\
    grade_counts boroughs abc grades = Ok t /\
    HTMLVisualizer.borough_totals t = Ok (totals chart) /\
    length (totals chart) = length boroughs /\
    sum (totals chart) = grades_total matched grades.
Proof.
  intros Hne Hnum.
  destruct (create_restaurant_grades_chart_eval grades Hne Hnum)
    as (t & Ht & Hchart).
  eexists. exists t. split; [exact Hchart|]. split; [exact Ht|].
  unfold totals. cbn [a_counts b_counts c_counts]. rewrite zip_sum_fmap.
  split; [exact (html_borough_totals_ok grades t Hnum Ht)|].
  split; [apply length_fmap | apply sum_borough_totals].
Qed.

Lemma stacked_bar_totals_witness :
  exists chart t,
    create_restaurant_grades_chart Scenario.grades = Ok (Some chart) /\
    grade_counts boroughs abc Scenario.grades = Ok t /\
    HTMLVisualizer.borough_totals t = Ok (totals chart) /\
    length (totals chart) = length boroughs /\
    sum (totals chart) = grades_total matched Scenario.grades.
Proof.
  apply (stacked_bar_totals Scenario.grades).
  - discriminate.
  - repeat constructor.
Defined.

Lemma borough_totals_ok (grades : list Grade.t) :
  Forall (fun item => numeric (Grade.count item)) grades ->
  exists totals, borough_totals grades = Ok totals.
Proof.
  intros Hnum.
  destruct (for_each_add_item grades Hnum [] (NoDup_nil_2)) as (totals & Hloop & _).
  exists totals. exact Hloop.
Qed.

(** *** The labels of the summary dashboard *)

Lemma string_length_append (s1 s2 : string) :
  String.length (s1 ++ s2)%string = (String.length s1 + String.length s2)%nat.
Proof. induction s1 as [|a s1 IH]; simpl; [reflexivity | rewrite IH; reflexivity]. Qed.

Lemma string_length_substring (n : nat) (s : string) :
  (String.length (substring 0 n s) <= n)%nat.
Proof.
  revert s. induction n as [|n IH]; intros [|a s]; simpl; try lia.
  specialize (IH s). lia.
Qed.

Lemma short_type_length (t : string) : (String.length (short_type t) <= 28)%nat.
Proof.
  unfold short_type. destruct (Nat.ltb_spec 25 (String.length t)) as [Hlong|Hshort].
  - rewrite string_length_append. pose proof (string_length_substring 25 t).
    simpl. lia.
  - lia.
Qed.

(** The first panel of the summary dashboard reads the first five
    complaints only: with integer counts in those its data is computed,
    whatever the later complaints hold, with at most five labels of at most
    28 characters and one count per label. *)
Theorem summary_dashboard_reads_five_complaints
    (complaints : list Complaint.t) :
  Forall (fun c => numeric (Complaint.count c)) (take 5 complaints) ->
  exists panel,
    create_summary_dashboard complaints = Ok panel /\
    (complaints = [] <-> panel = None) /\
    forall labels counts,
      panel = Some (labels, counts) ->
      (length labels <= 5)%nat /\
      length counts = length labels /\
      counts = count_of <$> take 5 complaints /\
      Forall (fun l => (String.length l <= 28)%nat) labels.
Proof.
  intros Hc. unfold create_summary_dashboard.
  rewrite (map_each_numeric Complaint.count _ Hc).
  set (shown := take 5 complaints).
  assert (Hlen : (length shown <= 5)%nat)
    by (unfold shown; rewrite length_take; lia).
  clearbody shown. destruct complaints as [|c complaints].
  - exists None. split; [reflexivity|]. split; [tauto | discriminate].
  - exists (Some ((fun c => short_type (Complaint.complaint_type c)) <$> shown,
                  count_of <$> shown)).
    split; [reflexivity|]. split; [split; discriminate|].
    intros labels counts [= <- <-].
    rewrite !length_fmap. split; [exact Hlen|]. split; [reflexivity|].
    split; [reflexivity|].
    apply Forall_fmap, Forall_forall. intros c' _. apply short_type_length.
Qed.

Lemma summary_dashboard_reads_five_complaints_witness :
  exists panel,
    create_summary_dashboard
      (Scenario.complaints ++ Scenario.complaints ++
       [Complaint.Make "Seventh" (VStr "n/a")])%list = Ok panel /\
    ((Scenario.complaints ++ Scenario.complaints ++
        [Complaint.Make "Seventh" (VStr "n/a")])%list = [] <->
     panel = None) /\
    forall labels counts,
      panel = Some (labels, counts) ->
      (length labels <= 5)%nat /\
      length counts = length labels /\
      counts = count_of <$> take 5
                 (Scenario.complaints ++ Scenario.complaints ++
                  [Complaint.Make "Seventh" (VStr "n/a")])%list /\
      Forall (fun l => (String.length l <= 28)%nat) labels.
Proof.
  apply (summary_dashboard_reads_five_complaints
           (Scenario.complaints ++ Scenario.complaints ++
            [Complaint.Make "Seventh" (VStr "n/a")])%list).
  repeat constructor.
Defined.

End ChartMethodFacts.

(** ** The table of [analyze_restaurant_grades] against the charts *)

Section AnalysisFacts.

Import DataVisualizer.

Local Ltac by_decide :=
  match goal with
  | |- ?P => apply (bool_decide_unpack P); vm_compute; exact I
  end.

Local Abbreviation keys4 := ["A"; "B"; "C"; "other"].

(** The body of the loop of [analyze_restaurant_grades]. *)
Local Abbreviation add_grade :=
  (fun (borough_data : gmap string (gmap string Z)) (item : Grade.t) =>
     let boro := Grade.boro item in
     let grade := upper (Grade.grade item) in
     count ← int (Grade.count item);
     let key := if bool_decide (grade ∈ ["A"; "B"; "C"]) then grade
                else "other" in
     row' ← iadd key count (RealDataAnalysis.row_of borough_data boro);
     Ok (<[boro := row']> borough_data)).

Local Abbreviation in_key b k :=
  (fun item : Grade.t => Grade.boro item = b /\ grade_key item = k).

Lemma grade_key_elem (item : Grade.t) : grade_key item ∈ keys4.
Proof.
  unfold grade_key. case_bool_decide as Hg; [|by_decide].
  rewrite !elem_of_cons in Hg |- *. rewrite elem_of_nil in Hg. tauto.
Qed.

Lemma grade_key_letter (item : Grade.t) (letter : string) :
  letter ∈ abc -> grade_key item = letter <-> upper (Grade.grade item) = letter.
Proof.
  intros Hl. unfold grade_key. case_bool_decide as Hg; [tauto|].
  split; [intros <-; revert Hl; by_decide | intros Heq; destruct Hg].
  rewrite Heq. exact Hl.
Qed.

Lemma default_zeros (keys : list string) (k : string) :
  default 0 (zeros keys !! k) = 0.
Proof.
  destruct (zeros keys !! k) as [v|] eqn:Hk; [|reflexivity].
  exact (lookup_zeros_Some _ _ _ Hk).
Qed.

Lemma row_of_keys (t : gmap string (gmap string Z)) (b k : string) :
  rowed t -> is_Some (RealDataAnalysis.row_of t b !! k) <-> k ∈ keys4.
Proof.
  intros Ht. unfold RealDataAnalysis.row_of.
  destruct (t !! b) as [row|] eqn:Hrow; simpl.
  - apply (Ht b row Hrow).
  - apply lookup_zeros_is_Some.
Qed.

Lemma row_of_insert (t : gmap string (gmap string Z)) (b b' : string)
    (row : gmap string Z) :
  RealDataAnalysis.row_of (<[b := row]> t) b' =
    if decide (b = b') then row else RealDataAnalysis.row_of t b'.
Proof.
  unfold RealDataAnalysis.row_of. case_decide as Hb.
  - subst. rewrite lookup_insert_eq. reflexivity.
  - rewrite lookup_insert_ne by exact Hb. reflexivity.
Qed.

Lemma rowed_insert (t : gmap string (gmap string Z)) (b k : string) (w : Z) :
  rowed t -> is_Some (RealDataAnalysis.row_of t b !! k) ->
  rowed (<[b := <[k := w]> (RealDataAnalysis.row_of t b)]> t).
Proof.
  intros Ht Hk b' row Hrow k'. destruct (decide (b = b')) as [<-|Hb].
  - rewrite lookup_insert_eq in Hrow. injection Hrow as <-.
    rewrite lookup_insert_is_Some', <- (row_of_keys t b k' Ht).
    split; [intros [<-|H]; assumption | auto].
  - rewrite lookup_insert_ne in Hrow by exact Hb. apply (Ht b' row Hrow).
Qed.

Lemma rows_total_insert (k b : string) (row : gmap string Z)
    (t : gmap string (gmap string Z)) :
  rows_total k (<[b := row]> t) =
    default 0 (row !! k) + rows_total k (delete b t).
Proof.
  unfold rows_total. rewrite <- (insert_delete_eq t b row).
  rewrite <- sum_cons. apply sum_Permutation.
  rewrite (map_to_list_insert (delete b t) b row) by apply lookup_delete_eq.
  reflexivity.
Qed.

Lemma rows_total_lookup (k b : string) (t : gmap string (gmap string Z)) :
  rows_total k t =
    default 0 (t !! b ≫= fun row => row !! k) + rows_total k (delete b t).
Proof.
  destruct (t !! b) as [row|] eqn:Hrow; simpl.
  - unfold rows_total. rewrite <- sum_cons. apply sum_Permutation.
    rewrite <- (map_to_list_delete t b row Hrow). reflexivity.
  - rewrite (delete_id t b Hrow). lia.
Qed.

(** One iteration adds the count to one cell of the row of the borough. *)
Lemma add_grade_ok (t : gmap string (gmap string Z)) (item : Grade.t) :
  rowed t -> numeric (Grade.count item) ->
  exists v,
    RealDataAnalysis.row_of t (Grade.boro item) !! grade_key item = Some v /\
    add_grade t item =
      Ok (<[Grade.boro item :=
              <[grade_key item := v + int_value (Grade.count item)]>
                (RealDataAnalysis.row_of t (Grade.boro item))]> t).
Proof.
  intros Ht Hnum.
  destruct (proj2 (row_of_keys t (Grade.boro item) (grade_key item) Ht)
              (grade_key_elem item)) as [v Hv].
  exists v. split; [exact Hv|].
  cbv zeta. rewrite (numeric_int _ Hnum), bind_Ok.
  change (if bool_decide (upper (Grade.grade item) ∈ ["A"; "B"; "C"])
          then upper (Grade.grade item) else "other") with (grade_key item).
  rewrite (iadd_ok _ _ _ _ Hv). reflexivity.
Qed.

Lemma add_grade_rows_total (k : string) (t : gmap string (gmap string Z))
    (b key : string) (v n : Z) :
  RealDataAnalysis.row_of t b !! key = Some v ->
  rows_total k (<[b := <[key := v + n]> (RealDataAnalysis.row_of t b)]> t) =
    rows_total k t + if decide (key = k) then n else 0.
Proof.
  intros Hv. rewrite rows_total_insert, (rows_total_lookup k b t).
  unfold RealDataAnalysis.row_of in *.
  destruct (t !! b) as [row|] eqn:Hrow; simpl in *.
  - case_decide as Hk.
    + subst. rewrite lookup_insert_eq, Hv. simpl. lia.
    + rewrite lookup_insert_ne by exact Hk. lia.
  - case_decide as Hk.
    + subst. rewrite lookup_insert_eq. simpl.
      rewrite (lookup_zeros_Some _ _ _ Hv). lia.
    + rewrite lookup_insert_ne by exact Hk. rewrite default_zeros. lia.
Qed.

(** The loop from any table with four-key rows. *)
Lemma for_each_add_grade (grades : list Grade.t) :
  Forall (fun item => numeric (Grade.count item)) grades ->
  forall t, rowed t ->
  exists t',
    for_each add_grade t grades = Ok t' /\
    rowed t' /\
    (forall b, is_Some (t' !! b) <->
               is_Some (t !! b) \/ b ∈ Grade.boro <$> grades) /\
    (forall k, rows_total k t' =
               rows_total k t +
               grades_total (fun item => grade_key item = k) grades) /\
    (forall b k v, RealDataAnalysis.row_of t b !! k = Some v ->
       RealDataAnalysis.row_of t' b !! k =
         Some (v + grades_total (in_key b k) grades)).
Proof.
  induction 1 as [|item grades Hnum _ IH]; intros t Ht.
  - exists t. split; [reflexivity|]. split; [exact Ht|]. split; [|split].
    + intros b. rewrite fmap_nil, elem_of_nil. tauto.
    + intros k. unfold grades_total. rewrite filter_nil, fmap_nil, sum_nil. lia.
    + intros b k v Hv. unfold grades_total.
      rewrite filter_nil, fmap_nil, sum_nil, Z.add_0_r. exact Hv.
  - destruct (add_grade_ok t item Ht Hnum) as (w & Hw & Hstep).
    set (n := int_value (Grade.count item)) in *.
    set (t1 := <[Grade.boro item :=
                   <[grade_key item := w + n]>
                     (RealDataAnalysis.row_of t (Grade.boro item))]> t) in *.
    assert (Ht1 : rowed t1) by (apply rowed_insert; [exact Ht | eauto]).
    destruct (IH t1 Ht1) as (t' & Hloop & Ht' & Hdom & Hrows & Hcell).
    exists t'. rewrite (for_each_cons_ok _ _ _ _ _ Hstep).
    split; [exact Hloop|]. split; [exact Ht'|]. split; [|split].
    + intros b. rewrite Hdom, fmap_cons, elem_of_cons. unfold t1.
      rewrite lookup_insert_is_Some'. split; [intros [[<-|H]|H] | intros [H|[->|H]]]; auto.
    + intros k. rewrite Hrows, grades_total_cons. unfold t1.
      rewrite (add_grade_rows_total k t _ _ w n Hw). fold n.
      repeat case_decide; try lia; congruence.
    + intros b k v Hv. rewrite grades_total_cons. fold n.
      destruct (decide (in_key b k item)) as [[<- <-]|Hbk].
      * assert (v = w) as -> by congruence.
        rewrite (Hcell _ _ (w + n)); [f_equal; lia|].
        unfold t1. rewrite row_of_insert, decide_True by reflexivity.
        apply lookup_insert_eq.
      * rewrite (Hcell b k v); [f_equal; lia|].
        unfold t1. rewrite row_of_insert. case_decide as Hb; [|exact Hv].
        subst b. rewrite lookup_insert_ne; [exact Hv|].
        intros Hk. apply Hbk. auto.
Qed.

Lemma rowed_empty : rowed ∅.
Proof. intros b row Hrow. rewrite lookup_empty in Hrow. discriminate. Qed.

Lemma rows_total_empty (k : string) : rows_total k ∅ = 0.
Proof. unfold rows_total. rewrite map_to_list_empty. reflexivity. Qed.

Lemma key_total_ok (k : string) (t : gmap string (gmap string Z)) :
  rowed t -> k ∈ keys4 ->
  RealDataAnalysis.key_total k t = Ok (rows_total k t).
Proof.
  intros Ht Hk. unfold RealDataAnalysis.key_total, rows_total.
  rewrite (map_each_ok _ (fun row : gmap string Z => default 0 (row !! k)));
    [reflexivity|].
  apply Forall_forall. intros row Hrow%list_elem_of_In.
  apply list_elem_of_fmap in Hrow as ([b row'] & -> & Hin%elem_of_map_to_list).
  destruct (proj2 (Ht b row' Hin k) Hk) as [v Hv]. simpl. rewrite Hv. reflexivity.
Qed.

Lemma grades_total_ext (P Q : Grade.t -> Prop)
    `{!forall g, Decision (P g)} `{!forall g, Decision (Q g)}
    (grades : list Grade.t) :
  (forall g, P g <-> Q g) -> grades_total P grades = grades_total Q grades.
Proof.
  intros Hpq. induction grades as [|g grades IH]; [reflexivity|].
  rewrite !grades_total_cons, IH. specialize (Hpq g).
  repeat case_decide; tauto || reflexivity.
Qed.

Lemma borough_data_rows (grades : list Grade.t) :
  Forall (fun item => numeric (Grade.count item)) grades ->
  exists bd,
    RealDataAnalysis.borough_data grades = Ok bd /\
    rowed bd /\
    (forall b, is_Some (bd !! b) <-> b ∈ Grade.boro <$> grades) /\
    (forall letter, letter ∈ abc ->
       RealDataAnalysis.key_total letter bd =
         Ok (grades_total (fun g => upper (Grade.grade g) = letter) grades)) /\
    (forall b k, k ∈ keys4 ->
       RealDataAnalysis.row_of bd b !! k =
         Some (grades_total (in_key b k) grades)).
Proof.
  intros Hnum.
  destruct (for_each_add_grade grades Hnum ∅ rowed_empty)
    as (bd & Hloop & Hbd & Hdom & Hrows & Hcell).
  exists bd. split; [exact Hloop|]. split; [exact Hbd|]. split; [|split].
  - intros b. rewrite Hdom, lookup_empty. split; [intros [[? [=]]|H] | auto]; exact H.
  - intros letter Hl. rewrite key_total_ok; [|exact Hbd|].
    + rewrite Hrows, rows_total_empty, Z.add_0_l. f_equal.
      apply grades_total_ext. intros g. apply grade_key_letter, Hl.
    + apply elem_of_abc in Hl. rewrite !elem_of_cons. tauto.
  - intros b k Hk.
    rewrite (Hcell b k 0); [f_equal; lia|].
    unfold RealDataAnalysis.row_of. rewrite lookup_empty. simpl.
    apply lookup_zeros, Hk.
Qed.

Lemma sum_values_keys4 (row : gmap string Z) :
  (forall k, is_Some (row !! k) <-> k ∈ keys4) ->
  sum_values row =
    default 0 (row !! "A") + default 0 (row !! "B") +
    default 0 (row !! "C") + default 0 (row !! "other").
Proof.
  intros Hkeys.
  destruct (proj2 (Hkeys "A")) as [a Ha]; [by_decide|].
  destruct (proj2 (Hkeys "B")) as [b Hb]; [by_decide|].
  destruct (proj2 (Hkeys "C")) as [c Hc]; [by_decide|].
  destruct (proj2 (Hkeys "other")) as [o Ho]; [by_decide|].
  rewrite Ha, Hb, Hc, Ho. simpl.
  assert (Hrow : row = <["A" := a]> (<["B" := b]> (<["C" := c]>
                          (<["other" := o]> ∅)))).
  { apply map_eq. intros k.
    destruct (decide (k = "A")) as [->|HA]; [rewrite lookup_insert_eq; exact Ha|].
    rewrite lookup_insert_ne by congruence.
    destruct (decide (k = "B")) as [->|HB]; [rewrite lookup_insert_eq; exact Hb|].
    rewrite lookup_insert_ne by congruence.
    destruct (decide (k = "C")) as [->|HC]; [rewrite lookup_insert_eq; exact Hc|].
    rewrite lookup_insert_ne by congruence.
    destruct (decide (k = "other")) as [->|HO]; [rewrite lookup_insert_eq; exact Ho|].
    rewrite lookup_insert_ne by congruence. rewrite lookup_empty.
    destruct (row !! k) eqn:Hk; [|reflexivity].
    assert (Hin : k ∈ keys4) by (apply Hkeys; eauto).
    rewrite !elem_of_cons, elem_of_nil in Hin. intuition congruence. }
  rewrite Hrow.
  rewrite !sum_values_insert_fresh, sum_values_empty; [lia|..];
    rewrite ?lookup_insert_ne by discriminate; apply lookup_empty.
Qed.

Lemma grades_total_by_key (b : string) (grades : list Grade.t) :
  grades_total (fun g => Grade.boro g = b) grades =
    grades_total (in_key b "A") grades + grades_total (in_key b "B") grades +
    grades_total (in_key b "C") grades + grades_total (in_key b "other") grades.
Proof.
  induction grades as [|g grades IH]; [reflexivity|].
  rewrite !grades_total_cons, IH.
  pose proof (grade_key_elem g) as Hk.
  rewrite !elem_of_cons, elem_of_nil in Hk.
  repeat case_decide; try lia; exfalso; intuition congruence.
Qed.

(** With counts that are not negative, the total of any selection of the
    records lies within the total of all of them. *)
Lemma grades_total_le_sum (P : Grade.t -> Prop)
    `{!forall g, Decision (P g)} (grades : list Grade.t) :
  Forall (fun item => 0 <= int_value (Grade.count item)) grades ->
  0 <= grades_total P grades <=
    sum ((fun g => int_value (Grade.count g)) <$> grades).
Proof.
  induction 1 as [|g grades Hg _ IH].
  - unfold grades_total. rewrite filter_nil, !fmap_nil, sum_nil. lia.
  - rewrite grades_total_cons, fmap_cons, sum_cons. case_decide; lia.
Qed.

(** A row of four cells that are not negative prints when its sum can be
    written. *)
Lemma print_row_ok (row : gmap string Z) (bound : Z) :
  (forall k, is_Some (row !! k) <-> k ∈ keys4) ->
  (forall k v, row !! k = Some v -> 0 <= v) ->
  sum_values row <= bound -> bound < str_bound ->
  RealDataAnalysis.print_row row = Ok tt.
Proof.
  intros Hkeys Hnn Hsum Hbound.
  pose proof (sum_values_keys4 row Hkeys) as Hs.
  destruct (proj2 (Hkeys "A")) as [a Ha]; [by_decide|].
  destruct (proj2 (Hkeys "B")) as [b Hb]; [by_decide|].
  destruct (proj2 (Hkeys "C")) as [c Hc]; [by_decide|].
  destruct (proj2 (Hkeys "other")) as [o Ho]; [by_decide|].
  rewrite Ha, Hb, Hc, Ho in Hs. simpl in Hs.
  pose proof (Hnn _ _ Ha). pose proof (Hnn _ _ Hb).
  pose proof (Hnn _ _ Hc). pose proof (Hnn _ _ Ho).
  unfold RealDataAnalysis.print_row. cbv zeta.
  rewrite (map_each_ok _ (fun _ => tt)).
  - rewrite bind_Ok. apply (format_int_within _ bound); lia.
  - repeat constructor; rewrite ?Ha, ?Hb, ?Hc;
      apply (format_int_within _ bound); lia.
Qed.

Lemma print_share_ok (total grand_total : Z) :
  0 <= total <= grand_total -> grand_total <> 0 -> total < str_bound ->
  RealDataAnalysis.print_share total grand_total =
    Ok (inject_Z total / inject_Z grand_total * 100)%Q.
Proof.
  intros Ht Hg Hfit. unfold RealDataAnalysis.print_share.
  rewrite (format_int_within total total), bind_Ok by lia.
  rewrite true_div_within by lia. reflexivity.
Qed.

(** The rows of the table print when the counts are not negative and their
    total can be written. *)
Lemma print_rows_ok (grades : list Grade.t)
    (bd : gmap string (gmap string Z)) :
  Forall (fun item => 0 <= int_value (Grade.count item)) grades ->
  sum ((fun g => int_value (Grade.count g)) <$> grades) < str_bound ->
  rowed bd ->
  (forall b k, k ∈ keys4 ->
     RealDataAnalysis.row_of bd b !! k =
       Some (grades_total (in_key b k) grades)) ->
  map_each RealDataAnalysis.print_row ((map_to_list bd).*2) =
    Ok ((fun _ => tt) <$> (map_to_list bd).*2).
Proof.
  intros Hpos Hfit Hrowed Hcell. apply map_each_ok, Forall_forall.
  intros row Hin%list_elem_of_In.
  apply list_elem_of_fmap in Hin as ([b row'] & -> & Hrow%elem_of_map_to_list).
  simpl.
  assert (Hr : forall k, k ∈ keys4 ->
                 row' !! k = Some (grades_total (in_key b k) grades)).
  { intros k Hk. specialize (Hcell b k Hk).
    unfold RealDataAnalysis.row_of in Hcell. rewrite Hrow in Hcell.
    exact Hcell. }
  apply (print_row_ok row'
           (sum ((fun g => int_value (Grade.count g)) <$> grades)));
    [exact (Hrowed b row' Hrow) | | | exact Hfit].
  - intros k v Hv.
    assert (Hk : k ∈ keys4) by (apply (Hrowed b row' Hrow); eauto).
    rewrite (Hr k Hk) in Hv. injection Hv as <-.
    apply (grades_total_le_sum (in_key b k) grades Hpos).
  - rewrite (sum_values_keys4 row' (Hrowed b row' Hrow)).
    rewrite !Hr by by_decide. simpl. rewrite <- grades_total_by_key.
    apply (grades_total_le_sum (fun g => Grade.boro g = b) grades Hpos).
Qed.

(** Let the counts be integers that are not negative, with a total that can
    be written.  Then [analyze_restaurant_grades] prints its table and
    returns; its overall grade totals are the sizes that
    [create_grade_distribution_pie] computes on the same records; and the
    distribution is printed exactly for a positive grand total, so that no
    division by zero can occur. *)
Theorem analysis_totals_are_the_pie_sizes (grades : list Grade.t) :
  grades <> [] ->
  Forall (fun item => numeric (Grade.count item)) grades ->
  Forall (fun item => 0 <= int_value (Grade.count item)) grades ->
  sum ((fun g => int_value (Grade.count g)) <$> grades) < str_bound ->
  exists r,
    RealDataAnalysis.analyze_restaurant_grades grades = Ok (Some r) /\
    create_grade_distribution_pie grades =
      Ok (Some [RealDataAnalysis.total_a r; RealDataAnalysis.total_b r;
                RealDataAnalysis.total_c r]) /\
    RealDataAnalysis.grand_total r =
      RealDataAnalysis.total_a r + RealDataAnalysis.total_b r +
      RealDataAnalysis.total_c r /\
    (is_Some (RealDataAnalysis.distribution r) <->
     0 < RealDataAnalysis.grand_total r).
Proof.
  intros Hne Hnum Hpos Hfit.
  destruct (borough_data_rows grades Hnum)
    as (bd & Hbd & Hrowed & _ & Htot & Hcell).
  rewrite (create_grade_distribution_pie_nonempty grades Hne).
  rewrite !(grade_total_ok _ grades Hnum), !bind_Ok.
  pose proof (grades_total_le_sum
                (fun g => upper (Grade.grade g) = "A") grades Hpos) as Ha.
  pose proof (grades_total_le_sum
                (fun g => upper (Grade.grade g) = "B") grades Hpos) as Hb.
  pose proof (grades_total_le_sum
                (fun g => upper (Grade.grade g) = "C") grades Hpos) as Hc.
  set (total_a := grades_total (fun g => upper (Grade.grade g) = "A") grades) in *.
  set (total_b := grades_total (fun g => upper (Grade.grade g) = "B") grades) in *.
  set (total_c := grades_total (fun g => upper (Grade.grade g) = "C") grades) in *.
  assert (Heval :
    RealDataAnalysis.analyze_restaurant_grades grades =
      if 0 <? total_a + total_b + total_c
      then
        qa ← RealDataAnalysis.print_share total_a (total_a + total_b + total_c);
        qb ← RealDataAnalysis.print_share total_b (total_a + total_b + total_c);
        qc ← RealDataAnalysis.print_share total_c (total_a + total_b + total_c);
        Ok (Some (RealDataAnalysis.GradeReport total_a total_b total_c
                    (total_a + total_b + total_c) (Some (qa, qb, qc))))
      else
        Ok (Some (RealDataAnalysis.GradeReport total_a total_b total_c
                    (total_a + total_b + total_c) None))).
  { destruct grades as [|g grades]; [contradiction|].
    unfold RealDataAnalysis.analyze_restaurant_grades.
    rewrite Hbd, bind_Ok.
    rewrite (print_rows_ok _ bd Hpos Hfit Hrowed Hcell), bind_Ok.
    rewrite !Htot by by_decide. reflexivity. }
  rewrite Heval. clear Heval.
  destruct (Z.ltb_spec 0 (total_a + total_b + total_c)) as [Hgt|Hle].
  - rewrite !print_share_ok, !bind_Ok by lia.
    eexists. split; [reflexivity|].
    simpl. split; [reflexivity|]. split; [reflexivity|].
    split; [intros _; exact Hgt | intros _; eauto].
  - eexists. split; [reflexivity|].
    simpl. split; [reflexivity|]. split; [reflexivity|].
    split; [intros [? [=]] | lia].
Qed.

Lemma analysis_totals_are_the_pie_sizes_witness :
  exists r,
    RealDataAnalysis.analyze_restaurant_grades Scenario.grades = Ok (Some r) /\
    create_grade_distribution_pie Scenario.grades =
      Ok (Some [RealDataAnalysis.total_a r; RealDataAnalysis.total_b r;
                RealDataAnalysis.total_c r]) /\
    RealDataAnalysis.grand_total r =
      RealDataAnalysis.total_a r + RealDataAnalysis.total_b r +
      RealDataAnalysis.total_c r /\
    (is_Some (RealDataAnalysis.distribution r) <->
     0 < RealDataAnalysis.grand_total r).
Proof.
  apply (analysis_totals_are_the_pie_sizes Scenario.grades).
  - discriminate.
  - repeat constructor.
  - repeat constructor; vm_compute; discriminate.
  - vm_compute. reflexivity.
Defined.

End AnalysisFacts.

Section AnalysisTableFacts.

Import DataVisualizer.

Local Ltac by_decide :=
  match goal with
  | |- ?P => apply (bool_decide_unpack P); vm_compute; exact I
  end.

Local Abbreviation keys4 := ["A"; "B"; "C"; "other"].

Local Abbreviation in_cell b g :=
  (fun item : Grade.t => Grade.boro item = b /\ upper (Grade.grade item) = g).

Local Abbreviation in_key b k :=
  (fun item : Grade.t => Grade.boro item = b /\ grade_key item = k).

(** The stacked bars show a part of the table of the analysis: every cell
    of the dense table of the chart loop is the cell of the same borough and
    grade that [analyze_restaurant_grades] reads (0 for a borough it has not
    met). *)
Theorem chart_table_is_part_of_analysis_table (grades : list Grade.t) :
  Forall (fun item => numeric (Grade.count item)) grades ->
  exists t bd,
    grade_counts boroughs abc grades = Ok t /\
    RealDataAnalysis.borough_data grades = Ok bd /\
    forall b g, b ∈ boroughs -> g ∈ abc ->
      exists v, cell t b g = Ok v /\
                RealDataAnalysis.row_of bd b !! g = Some v.
Proof.
  intros Hnum.
  destruct (grade_counts_cells boroughs abc grades Hnum) as (t & Ht & _ & Hcell).
  destruct (borough_data_rows grades Hnum) as (bd & Hbd & _ & _ & _ & Hrow).
  exists t, bd. split; [exact Ht|]. split; [exact Hbd|].
  intros b g Hb Hg. eexists. split; [apply (Hcell b g Hb Hg)|].
  rewrite Hrow.
  - f_equal. apply grades_total_ext. intros item.
    pose proof (grade_key_letter item g Hg). tauto.
  - apply elem_of_abc in Hg. rewrite !elem_of_cons. tauto.
Qed.

Lemma chart_table_is_part_of_analysis_table_witness :
  exists t bd,
    grade_counts boroughs abc Scenario.grades = Ok t /\
    RealDataAnalysis.borough_data Scenario.grades = Ok bd /\
    forall b g, b ∈ boroughs -> g ∈ abc ->
      exists v, cell t b g = Ok v /\
                RealDataAnalysis.row_of bd b !! g = Some v.
Proof.
  apply (chart_table_is_part_of_analysis_table Scenario.grades).
  repeat constructor.
Defined.

(** [analyze_restaurant_grades] keeps a row for exactly the boroughs that
    occur in the records, and the total it prints for a borough, the sum of
    the four cells of its row, is the sum of the counts of all records of
    that borough: the entry of that borough in the [borough_totals] of
    [create_borough_comparison_chart]. *)
Theorem analysis_rows_are_the_borough_totals (grades : list Grade.t) :
  Forall (fun item => numeric (Grade.count item)) grades ->
  exists bd totals,
    RealDataAnalysis.borough_data grades = Ok bd /\
    borough_totals grades = Ok totals /\
    (forall b, is_Some (bd !! b) <-> b ∈ Grade.boro <$> grades) /\
    forall b row, bd !! b = Some row ->
      sum_values row = grades_total (fun g => Grade.boro g = b) grades /\
      (b, sum_values row) ∈ totals.
Proof.
  intros Hnum.
  destruct (borough_data_rows grades Hnum) as (bd & Hbd & Hrowed & Hdom & _ & Hcell).
  destruct (for_each_add_item grades Hnum [] (NoDup_nil_2))
    as (totals & Htot & Hnd & _ & Hmap).
  exists bd, totals. split; [exact Hbd|]. split; [exact Htot|].
  split; [exact Hdom|].
  intros b row Hrow.
  assert (Hsum : sum_values row = grades_total (fun g => Grade.boro g = b) grades).
  { rewrite (sum_values_keys4 row (Hrowed b row Hrow)), grades_total_by_key.
    assert (Hr : forall k, k ∈ keys4 ->
                   default 0 (row !! k) = grades_total (in_key b k) grades).
    { intros k Hk. specialize (Hcell b k Hk).
      unfold RealDataAnalysis.row_of in Hcell. rewrite Hrow in Hcell.
      simpl in Hcell. rewrite Hcell. reflexivity. }
    rewrite !Hr by by_decide. reflexivity. }
  split; [exact Hsum|].
  apply elem_of_list_to_map_2. specialize (Hmap b).
  simpl in Hmap. rewrite lookup_empty in Hmap.
  rewrite decide_True in Hmap by (apply Hdom; eauto).
  rewrite Hsum. exact Hmap.
Qed.

Lemma analysis_rows_are_the_borough_totals_witness :
  exists bd totals,
    RealDataAnalysis.borough_data Scenario.grades = Ok bd /\
    borough_totals Scenario.grades = Ok totals /\
    (forall b, is_Some (bd !! b) <-> b ∈ Grade.boro <$> Scenario.grades) /\
    forall b row, bd !! b = Some row ->
      sum_values row =
        grades_total (fun g => Grade.boro g = b) Scenario.grades /\
      (b, sum_values row) ∈ totals.
Proof.
  apply (analysis_rows_are_the_borough_totals Scenario.grades).
  repeat constructor.
Defined.

(** The counts of a table print when they are integers that are not
    negative and their total can be written. *)
Lemma format_counts_ok (complaints shown : list Complaint.t) :
  Forall (fun c => numeric (Complaint.count c)) complaints ->
  Forall (fun c => 0 <= int_value (Complaint.count c)) complaints ->
  sum ((fun c => int_value (Complaint.count c)) <$> complaints) < str_bound ->
  shown ⊆ complaints ->
  map_each (fun item => format_value (Complaint.count item)) shown =
    Ok ((fun _ => tt) <$> shown).
Proof.
  intros Hnum Hpos Hfit Hsub. apply map_each_ok, Forall_forall.
  intros c Hc%list_elem_of_In%Hsub.
  apply (format_value_within _
           (sum ((fun c => int_value (Complaint.count c)) <$> complaints)));
    [|apply elem_of_sum_bounds|exact Hfit].
  - rewrite Forall_forall in Hnum. apply Hnum, list_elem_of_In, Hc.
  - apply Forall_fmap. exact Hpos.
  - apply list_elem_of_fmap. exists c. auto.
Qed.

(** [analyze_311_complaints] never divides by zero.  With integer counts
    that are not negative and a total that can be written it returns,
    nothing for an empty list and else a share that is 0 whenever the total
    of the counts is not positive. *)
Theorem analyze_311_complaints_guards_its_division
    (complaints : list Complaint.t) :
  Forall (fun c => numeric (Complaint.count c)) complaints ->
  Forall (fun c => 0 <= int_value (Complaint.count c)) complaints ->
  sum ((fun c => int_value (Complaint.count c)) <$> complaints) < str_bound ->
  (complaints = [] /\
   RealDataAnalysis.analyze_311_complaints complaints = Ok None) \/
  (exists q,
      RealDataAnalysis.analyze_311_complaints complaints = Ok (Some q) /\
      (sum ((fun c => int_value (Complaint.count c)) <$> complaints) <= 0 ->
       q = 0%Q)).
Proof.
  intros Hnum Hpos Hfit.
  destruct complaints as [|top complaints]; [left; auto|]. right.
  pose proof (elem_of_sum_bounds
                ((fun c => int_value (Complaint.count c)) <$> top :: complaints)
                (int_value (Complaint.count top))) as Htop.
  pose proof (sum_nonneg
                ((fun c => int_value (Complaint.count c)) <$> top :: complaints))
    as Hsum.
  unfold RealDataAnalysis.analyze_311_complaints.
  rewrite (format_counts_ok (top :: complaints) _ Hnum Hpos Hfit), bind_Ok
    by apply list.subseteq_take.
  rewrite (map_each_numeric Complaint.count _ Hnum), bind_Ok. cbv zeta.
  rewrite (format_int_ok _), bind_Ok
    by (specialize (Hsum ltac:(apply Forall_fmap; exact Hpos)); lia).
  inversion_clear Hnum as [|? ? Hn _].
  rewrite (numeric_int _ Hn), bind_Ok.
  destruct (Z.ltb_spec 0
              (sum ((fun c => int_value (Complaint.count c))
                      <$> top :: complaints))) as [Hgt|Hle].
  - rewrite true_div_within, bind_Ok.
    + eexists. split; [reflexivity|]. lia.
    + lia.
    + specialize (Htop ltac:(apply Forall_fmap; exact Hpos)
                       ltac:(rewrite fmap_cons; apply list_elem_of_here)).
      lia.
  - eexists. split; [reflexivity|]. reflexivity.
Qed.

Lemma analyze_311_complaints_guards_its_division_witness :
  ([Complaint.Make "Noise" (VStr "0")] = [] /\
   RealDataAnalysis.analyze_311_complaints
     [Complaint.Make "Noise" (VStr "0")] = Ok None) \/
  (exists q,
      RealDataAnalysis.analyze_311_complaints
        [Complaint.Make "Noise" (VStr "0")] = Ok (Some q) /\
      (sum ((fun c => int_value (Complaint.count c))
              <$> [Complaint.Make "Noise" (VStr "0")]) <= 0 ->
       q = 0%Q)).
Proof.
  apply (analyze_311_complaints_guards_its_division
           [Complaint.Make "Noise" (VStr "0")]).
  - repeat constructor.
  - repeat constructor; vm_compute; discriminate.
  - vm_compute. reflexivity.
Defined.

(** [create_combined_insights] never divides by zero either.  Let the
    counts be integers, those of the grade records not negative, and let the
    yearly number of complaints and the population fit a float.  Then it
    returns, with the yearly requests per person exactly when there are
    complaints and a positive population, and with the share of grade A
    exactly when the counts of all grade records add up to a positive
    number. *)
Theorem create_combined_insights_guards_its_divisions
    (complaints : list Complaint.t) (grades : list Grade.t)
    (cities : list (string * Z)) (nyc_pop : option Z) :
  Forall (fun c => numeric (Complaint.count c)) complaints ->
  Forall (fun item => numeric (Grade.count item)) grades ->
  Forall (fun item => 0 <= int_value (Grade.count item)) grades ->
  overflows
    (sum ((fun c => int_value (Complaint.count c)) <$> complaints) * 365) 7
    = false ->
  overflows (default 0 nyc_pop) 1 = false ->
  exists r,
    RealDataAnalysis.create_combined_insights complaints grades cities nyc_pop
      = Ok r /\
    (is_Some (RealDataAnalysis.complaints_per_capita r) <->
     complaints <> [] /\ 0 < default 0 nyc_pop) /\
    (is_Some (RealDataAnalysis.a_percentage r) <->
     0 < sum ((fun g => int_value (Grade.count g)) <$> grades)).
Proof.
  intros Hc Hg Hpos Hyear Hpop.
  unfold RealDataAnalysis.create_combined_insights.
  match goal with
  | |- exists r, (?m ≫= _) = Ok r /\ _ =>
      assert (H1 : exists p1,
                 m = Ok p1 /\
                 (is_Some p1 <-> complaints <> [] /\ 0 < default 0 nyc_pop))
  end.
  { destruct complaints as [|c complaints].
    - exists None. split; [reflexivity|].
      split; [intros [? [=]] | intros [[] _]; reflexivity].
    - rewrite (map_each_numeric Complaint.count _ Hc), bind_Ok. cbv zeta.
      destruct (Z.ltb_spec 0 (default 0 nyc_pop)) as [Hgt|Hle].
      + unfold HTMLVisualizer.true_div, RealDataAnalysis.float_div.
        change (7 =? 0) with false. cbv iota. rewrite Hyear, bind_Ok, Hpop.
        destruct (Z.eqb_spec (default 0 nyc_pop) 0) as [Hz|_]; [lia|].
        eexists. split; [reflexivity|].
        split; [intros _; split; [discriminate|lia] | eauto].
      + exists None. split; [reflexivity|]. split; [intros [? [=]] | lia]. }
  destruct H1 as (p1 & Hm1 & Hp1). rewrite Hm1, bind_Ok. clear Hm1.
  match goal with
  | |- exists r, (?m ≫= _) = Ok r /\ _ =>
      assert (H2 : exists p2,
                 m = Ok p2 /\
                 (is_Some p2 <->
                  0 < sum ((fun g => int_value (Grade.count g)) <$> grades)))
  end.
  { destruct grades as [|g grades].
    - exists None. split; [reflexivity|].
      split; [intros [? [=]] | rewrite fmap_nil, sum_nil; lia].
    - rewrite (map_each_numeric Grade.count _ Hg), bind_Ok. cbv zeta.
      rewrite (grade_total_ok _ _ Hg), bind_Ok.
      pose proof (grades_total_le_sum
                    (fun g => upper (Grade.grade g) = "A") (g :: grades) Hpos).
      destruct (Z.ltb_spec 0 (sum ((fun g => int_value (Grade.count g))
                                     <$> g :: grades))) as [Hgt|Hle].
      + rewrite true_div_within, bind_Ok by lia.
        eexists. split; [reflexivity|]. split; [intros _; exact Hgt | eauto].
      + exists None. split; [reflexivity|]. split; [intros [? [=]] | lia]. }
  destruct H2 as (p2 & Hm2 & Hp2). rewrite Hm2, bind_Ok. clear Hm2.
  match goal with
  | |- exists r, (?m ≫= _) = Ok r /\ _ => assert (H3 : m = Ok tt)
  end.
  { destruct cities as [|city cities]; [reflexivity|].
    destruct nyc_pop as [nyc_population|]; [|reflexivity].
    destruct (0 <? nyc_population); [|reflexivity].
    apply format_int_fits, Hpop. }
  rewrite H3, bind_Ok.
  eexists. split; [reflexivity|]. split; assumption.
Qed.

Lemma create_combined_insights_guards_its_divisions_witness :
  exists r,
    RealDataAnalysis.create_combined_insights
      Scenario.complaints Scenario.grades
      [("New York City", 8335897); ("Los Angeles", 3822238)] (Some 8335897)
      = Ok r /\
    (is_Some (RealDataAnalysis.complaints_per_capita r) <->
     Scenario.complaints <> [] /\ 0 < default 0 (Some 8335897)) /\
    (is_Some (RealDataAnalysis.a_percentage r) <->
     0 < sum ((fun g => int_value (Grade.count g)) <$> Scenario.grades)).
Proof.
  apply (create_combined_insights_guards_its_divisions
           Scenario.complaints Scenario.grades
           [("New York City", 8335897); ("Los Angeles", 3822238)]
           (Some 8335897)).
  - repeat constructor.
  - repeat constructor.
  - repeat constructor; vm_compute; discriminate.
  - vm_compute. reflexivity.
  - vm_compute. reflexivity.
Defined.

End AnalysisTableFacts.

(** ** The population comparison *)

Section PopulationFacts.

Import DataVisualizer.

(** The sort key of [analyze_population_comparison]. *)
Local Abbreviation pop_key cities :=
  (fun x => match RealDataAnalysis.population_of x cities with
            | Ok pop => pop
            | Raise _ => 0
            end).

Lemma population_of_elem (cities : list (string * Z)) (n : string) (p : Z) :
  NoDup (cities.*1) -> (n, p) ∈ cities ->
  RealDataAnalysis.population_of n cities = Ok p.
Proof.
  induction cities as [|[n' p'] cities IH]; [intros _ []%elem_of_nil|].
  rewrite fmap_cons. intros [Hn' Hnd]%list.NoDup_cons [Heq|Hin]%elem_of_cons;
    cbn [RealDataAnalysis.population_of].
  - injection Heq as -> ->. rewrite bool_decide_true by reflexivity. reflexivity.
  - rewrite bool_decide_false; [apply IH; assumption|].
    intros ->. apply Hn'. apply list_elem_of_fmap. exists (n, p). auto.
Qed.

Lemma population_of_key (cities : list (string * Z)) (n : string) :
  n ∈ cities.*1 -> exists p, RealDataAnalysis.population_of n cities = Ok p.
Proof.
  induction cities as [|[n' p'] cities IH]; [intros []%elem_of_nil|].
  rewrite fmap_cons. cbn [RealDataAnalysis.population_of fst].
  intros [->|Hin]%elem_of_cons.
  - rewrite bool_decide_true by reflexivity. eauto.
  - case_bool_decide; [eauto | apply IH, Hin].
Qed.

Lemma keyed_pairs (cities : list (string * Z)) :
  NoDup (cities.*1) ->
  (fun x => (x, pop_key cities x)) <$> cities.*1 = cities.
Proof.
  intros Hnd. rewrite <- list_fmap_compose.
  transitivity (id <$> cities); [|apply list_fmap_id].
  apply Forall_fmap_ext_1, Forall_forall. intros [n p] Hin%list_elem_of_In.
  simpl. rewrite (population_of_elem cities n p Hnd Hin). reflexivity.
Qed.

Lemma StronglySorted_keyed {A} (key : A -> Z) (l : list A) :
  StronglySorted (descending key) l ->
  StronglySorted (descending snd) ((fun x => (x, key x)) <$> l).
Proof.
  induction 1 as [|x l _ IH Hx]; [constructor|].
  rewrite fmap_cons. constructor; [exact IH|].
  apply Forall_fmap. exact Hx.
Qed.

Lemma population_of_In (cities : list (string * Z)) (n : string) (p : Z) :
  RealDataAnalysis.population_of n cities = Ok p -> (n, p) ∈ cities.
Proof.
  induction cities as [|[n' p'] cities IH]; [intros [=]|].
  cbn [RealDataAnalysis.population_of]. case_bool_decide as Hn.
  - intros [= ->]. subst n'. apply list_elem_of_here.
  - intros Hp. apply list_elem_of_further, IH, Hp.
Qed.

(** The printed lines, one per city. *)
Lemma population_lines_ok (cities : list (string * Z)) (nyc : Z)
    (names : list string) :
  Forall (fun x => x ∈ cities.*1) names ->
  Forall (fun city => overflows city.2 1 = false) cities ->
  map_each
    (fun city_name =>
       pop ← RealDataAnalysis.population_of city_name cities;
       comparison ←
         (if 0 <? nyc
          then ratio ← HTMLVisualizer.true_div pop nyc; Ok (Some ratio)
          else Ok None);
       _ ← format_int pop;
       Ok (city_name, pop, comparison))
    names =
  Ok ((fun x => (x, pop_key cities x,
                 if 0 <? nyc
                 then Some (inject_Z (pop_key cities x) / inject_Z nyc)%Q
                 else None)) <$> names).
Proof.
  intros Hnames Hfit. apply map_each_ok. eapply Forall_impl; [|exact Hnames].
  intros x Hx. simpl in Hx. destruct (population_of_key cities x Hx) as [p Hp].
  assert (Hp1 : overflows p 1 = false).
  { rewrite Forall_forall in Hfit.
    apply (Hfit (x, p)), list_elem_of_In, population_of_In, Hp. }
  rewrite Hp, bind_Ok. destruct (Z.ltb_spec 0 nyc) as [Hpos|Hle].
  - rewrite (true_div_fits p nyc) by (lia || exact Hp1).
    rewrite !bind_Ok, (format_int_fits p Hp1). reflexivity.
  - rewrite bind_Ok, (format_int_fits p Hp1). reflexivity.
Qed.

(** Let the populations, that of New York included, fit a float, and let
    their sum be short enough to be written.  Then
    [analyze_population_comparison] lists the cities of the dictionary in
    descending order of population, with a ratio to New York only when its
    population is known and positive.  Its closing insight divides by the
    sum of the populations without a guard of its own: the function fails,
    with [ZeroDivisionError], exactly when New York's population is positive
    and that sum is zero. *)
Theorem population_comparison_listing (cities : list (string * Z))
    (nyc_pop : option Z) :
  cities <> [] -> NoDup (cities.*1) ->
  Forall (fun city => overflows city.2 1 = false) cities ->
  overflows (default 0 nyc_pop) 1 = false ->
  Z.abs (sum (cities.*2)) < str_bound ->
  (0 < default 0 nyc_pop /\ sum (cities.*2) = 0 ->
   RealDataAnalysis.analyze_population_comparison cities nyc_pop =
     Raise ZeroDivisionError) /\
  (¬ (0 < default 0 nyc_pop /\ sum (cities.*2) = 0) ->
   exists r,
     RealDataAnalysis.analyze_population_comparison cities nyc_pop =
       Ok (Some r) /\
     (RealDataAnalysis.lines r).*1 ≡ₚ cities /\
     StronglySorted (descending snd) ((RealDataAnalysis.lines r).*1) /\
     Forall (fun l => is_Some l.2 <-> 0 < default 0 nyc_pop)
       (RealDataAnalysis.lines r) /\
     (is_Some (RealDataAnalysis.nyc_share r) <-> 0 < default 0 nyc_pop)).
Proof.
  intros Hne Hnd Hfit Hnyc Hsum.
  set (names := sorted_desc (pop_key cities) (cities.*1)).
  assert (Hnames : Forall (fun x => x ∈ cities.*1) names).
  { apply Forall_forall. intros x Hx%list_elem_of_In.
    unfold names in Hx. rewrite sorted_desc_Permutation in Hx. exact Hx. }
  pose proof (population_lines_ok cities (default 0 nyc_pop) names Hnames Hfit)
    as Hlines.
  assert (Heval :
    RealDataAnalysis.analyze_population_comparison cities nyc_pop =
      (lines ← Ok ((fun x => (x, pop_key cities x,
                     if 0 <? default 0 nyc_pop
                     then Some (inject_Z (pop_key cities x) /
                                inject_Z (default 0%Z nyc_pop))%Q
                     else None)) <$> names);
       if 0 <? default 0 nyc_pop
       then
         _ ← format_int (sum (cities.*2));
         q ← HTMLVisualizer.true_div (default 0 nyc_pop) (sum (cities.*2));
         Ok (Some (RealDataAnalysis.PopulationReport lines (Some (q * 100)%Q)))
       else Ok (Some (RealDataAnalysis.PopulationReport lines None)))).
  { rewrite <- Hlines. destruct cities; [contradiction | reflexivity]. }
  rewrite Heval, bind_Ok, (format_int_ok _ Hsum). clear Heval Hlines.
  set (L := (fun x => (x, pop_key cities x,
               if 0 <? default 0 nyc_pop
               then Some (inject_Z (pop_key cities x) /
                          inject_Z (default 0%Z nyc_pop))%Q
               else None)) <$> names).
  assert (Hfst : L.*1 = (fun x => (x, pop_key cities x)) <$> names).
  { unfold L. rewrite <- list_fmap_compose. reflexivity. }
  assert (HL1 : L.*1 ≡ₚ cities).
  { rewrite Hfst. unfold names.
    rewrite sorted_desc_Permutation, keyed_pairs by exact Hnd. reflexivity. }
  assert (HL2 : StronglySorted (descending snd) (L.*1)).
  { rewrite Hfst. apply StronglySorted_keyed, sorted_desc_StronglySorted. }
  assert (HL3 : Forall (fun l => is_Some l.2 <-> 0 < default 0 nyc_pop) L).
  { apply Forall_fmap, Forall_forall. intros x _. simpl.
    destruct (Z.ltb_spec 0 (default 0 nyc_pop)) as [Hpos|Hle].
    - split; eauto.
    - split; [intros [? [=]] | lia]. }
  clearbody L. clear Hfst. split.
  - intros [Hpos Hzero]. apply Z.ltb_lt in Hpos. rewrite Hpos, bind_Ok.
    unfold HTMLVisualizer.true_div. rewrite Hzero. reflexivity.
  - intros Hok. destruct (Z.ltb_spec 0 (default 0 nyc_pop)) as [Hpos|Hle].
    + rewrite bind_Ok, true_div_fits by (tauto || exact Hnyc).
      eexists. split; [reflexivity|].
      cbn [RealDataAnalysis.lines RealDataAnalysis.nyc_share].
      split; [exact HL1|]. split; [exact HL2|]. split; [exact HL3|].
      split; eauto.
    + eexists. split; [reflexivity|].
      cbn [RealDataAnalysis.lines RealDataAnalysis.nyc_share].
      split; [exact HL1|]. split; [exact HL2|]. split; [exact HL3|].
      split; [intros [? [=]] | lia].
Qed.

Lemma population_comparison_listing_witness :
  exists r,
    RealDataAnalysis.analyze_population_comparison
      [("New York City", 8335897); ("Los Angeles", 3822238);
       ("Chicago", 2665039)] (Some 8335897) = Ok (Some r) /\
    (RealDataAnalysis.lines r).*1 ≡ₚ
      [("New York City", 8335897); ("Los Angeles", 3822238);
       ("Chicago", 2665039)] /\
    StronglySorted (descending snd) ((RealDataAnalysis.lines r).*1) /\
    Forall (fun l => is_Some l.2 <-> 0 < default 0 (Some 8335897))
      (RealDataAnalysis.lines r) /\
    (is_Some (RealDataAnalysis.nyc_share r) <-> 0 < default 0 (Some 8335897)).
Proof.
  apply (population_comparison_listing
           [("New York City", 8335897); ("Los Angeles", 3822238);
            ("Chicago", 2665039)] (Some 8335897)).
  - discriminate.
  - apply (bool_decide_unpack _). vm_compute. exact I.
  - repeat constructor.
  - vm_compute. reflexivity.
  - vm_compute. reflexivity.
  - intros [_ Hz]. vm_compute in Hz. discriminate Hz.
Defined.

End PopulationFacts.

(** ** What the pie and the category chart read *)

Section ReadFacts.

Import DataVisualizer.

Lemma map_each_int_cases {A} (f : A -> value) (l : list A) :
  map_each (fun x => int (f x)) l = Ok ((fun x => int_value (f x)) <$> l) \/
  map_each (fun x => int (f x)) l = Raise ValueError.
Proof.
  destruct (Forall_Exists_dec
              (fun x : A => Is_true (numeric (f x)))
              (fun x => decide (Is_true (numeric (f x)))) l) as [Hall|Hbad].
  - left. apply map_each_numeric, Hall.
  - right. apply map_each_raise, Hbad.
Qed.

Lemma grade_total_cases (letter : string) (grades : list Grade.t) :
  (exists n, grade_total letter grades = Ok n) \/
  grade_total letter grades = Raise ValueError.
Proof.
  unfold grade_total.
  destruct (map_each_int_cases Grade.count
              (filter (fun g => upper (Grade.grade g) = letter) grades))
    as [-> | ->]; [left; eexists; reflexivity | right; reflexivity].
Qed.

Lemma grade_total_raise (grades : list Grade.t) (g : Grade.t) :
  g ∈ grades -> ¬ numeric (Grade.count g) ->
  grade_total (upper (Grade.grade g)) grades = Raise ValueError.
Proof.
  intros Hin Hbad. unfold grade_total.
  rewrite (map_each_raise Grade.count); [reflexivity|].
  apply Exists_exists. exists g. split; [|exact Hbad].
  apply list_elem_of_In, list_elem_of_filter. auto.
Qed.

(** [create_grade_distribution_pie] applies [int] to the counts of the
    records of grade A, B or C only: the sizes of the pie are computed
    (lines 148-155) whenever those counts are integer literals, whatever the
    counts of the other records, and the method stops with [ValueError]
    before anything is drawn when one of them is an ASCII string that is no
    integer literal. *)
Theorem pie_reads_only_the_counts_of_abc_records (grades : list Grade.t) :
  grades <> [] ->
  (Forall (fun g => upper (Grade.grade g) ∈ abc -> numeric (Grade.count g))
     grades ->
   exists sizes, create_grade_distribution_pie grades = Ok (Some sizes)) /\
  (Exists (fun g => upper (Grade.grade g) ∈ abc /\
                    ascii_count (Grade.count g) /\
                    ¬ numeric (Grade.count g))
     grades ->
   create_grade_distribution_pie grades = Raise ValueError).
Proof.
  intros Hne. rewrite (create_grade_distribution_pie_nonempty grades Hne).
  split.
  - intros Hall.
    assert (Hok : forall letter, letter ∈ abc ->
                    exists n, grade_total letter grades = Ok n).
    { intros letter Hl. unfold grade_total.
      rewrite (map_each_numeric Grade.count); [eexists; reflexivity|].
      apply Forall_forall. intros g [Hg Hin]%list_elem_of_In%list_elem_of_filter.
      rewrite Forall_forall in Hall. apply Hall; [apply list_elem_of_In, Hin|].
      rewrite Hg. exact Hl. }
    destruct (Hok "A") as [a ->]; [apply elem_of_abc; auto|].
    destruct (Hok "B") as [b ->]; [apply elem_of_abc; auto|].
    destruct (Hok "C") as [c ->]; [apply elem_of_abc; auto|].
    eexists. reflexivity.
  - intros (g & Hin%list_elem_of_In & Hg & _ & Hbad)%Exists_exists.
    pose proof (grade_total_raise grades g Hin Hbad) as Hraise.
    destruct (grade_total_cases "A" grades) as [[a Ha]| ->]; [|reflexivity].
    rewrite Ha, bind_Ok.
    destruct (grade_total_cases "B" grades) as [[b Hb]| ->]; [|reflexivity].
    rewrite Hb, bind_Ok.
    destruct (grade_total_cases "C" grades) as [[c Hc]| ->]; [|reflexivity].
    apply elem_of_abc in Hg as [Hg|[Hg|Hg]]; rewrite Hg in Hraise; congruence.
Qed.

Lemma pie_reads_only_the_counts_of_abc_records_witness :
  exists sizes,
    create_grade_distribution_pie
      [Grade.Make "Queens" "A" (VStr "7"); Grade.Make "Queens" "Z" (VStr "n/a")]
      = Ok (Some sizes).
Proof.
  apply (pie_reads_only_the_counts_of_abc_records
           [Grade.Make "Queens" "A" (VStr "7");
            Grade.Make "Queens" "Z" (VStr "n/a")]).
  - discriminate.
  - constructor; [intros _; exact I|].
    constructor; [|constructor].
    intros Hz. exfalso. revert Hz.
    apply (bool_decide_unpack _). vm_compute. exact I.
Defined.

(** The dictionary of category totals has the declared buckets as its keys
    and no other: the category chart has exactly one bar per bucket. *)
Theorem category_counts_has_the_declared_keys
    (categories : list (string * list string))
    (complaints : list Complaint.t) :
  "Other" ∈ categories.*1 ->
  Forall (fun c => numeric (Complaint.count c)) complaints ->
  exists d,
    category_counts categories complaints = Ok d /\
    (forall k, is_Some (d !! k) <-> k ∈ categories.*1) /\
    (NoDup (categories.*1) -> size d = length categories).
Proof.
  intros Hother Hnum.
  destruct (for_each_categorize categories Hother complaints Hnum _
              (keyed_zeros categories)) as (d & Hd & Hk & _).
  exists d. split; [exact Hd|]. split; [exact Hk|].
  intros Hnd.
  rewrite <- (length_fmap fst categories).
  rewrite <- (size_list_to_set (C := gset string) (categories.*1) Hnd), <- size_dom.
  f_equal. apply set_eq. intros k.
  rewrite elem_of_dom, elem_of_list_to_set. apply Hk.
Qed.

Lemma category_counts_has_the_declared_keys_witness :
  exists d,
    category_counts categories Scenario.complaints = Ok d /\
    (forall k, is_Some (d !! k) <-> k ∈ categories.*1) /\
    (NoDup (categories.*1) -> size d = length categories).
Proof.
  apply (category_counts_has_the_declared_keys categories Scenario.complaints).
  - apply (bool_decide_unpack _). vm_compute. exact I.
  - repeat constructor.
Defined.

End ReadFacts.
